(** * PriceProphet: the pricing normalizer and the elasticity curve

    A shallow embedding of [SimulatedBackend] from [src/index.tsx]:
    [analyzePrice] (the shaping of the AI payload into a [PricingResult],
    with its cost-plus fallback) and [calculateConversion] (the demand and
    revenue curve).

    JavaScript numbers are IEEE 754 binary64 values; they are modelled by
    Rocq's primitive [float], whose operations are the binary64 ones
    (round to nearest, ties to even), so the arithmetic below computes what
    the script computes, including [NaN], the infinities and signed zeros. *)

From Stdlib Require Import ZArith List Bool Lia String QArith.
From Stdlib Require Import Floats.
Import ListNotations.

Set Warnings "-inexact-float,-register-all".

#[local] Open Scope float_scope.

(** ** Numbers of the JavaScript runtime *)

Module JsNumber.

(** An integer of the script (a loop counter, a rounded count) as a number.
    Exact for magnitudes below 2^53. *)
Definition Z2float (n : Z) : float :=
  match n with
  | Z0 => 0
  | Zpos _ => of_uint63 (Uint63.of_Z n)
  | Zneg p => - of_uint63 (Uint63.of_Z (Zpos p))
  end.

(** [Math.round]: the integer closest to [x], ties towards +infinity;
    [NaN], the infinities, the zeros and integral values are returned
    unchanged, and a negative value that rounds to zero gives [-0].
    A finite non-zero [x] is [(-1)^s * m * 2^e]; with [e >= 0] it is
    integral already, otherwise [floor (x + 1/2)] is computed exactly. *)
Definition Math_round (x : float) : float :=
  match Prim2SF x with
  | S754_finite s m e =>
      if (0 <=? e)%Z then x
      else
        let n := ((cond_Zopp s (Zpos m) * 2 + 2 ^ (- e)) / 2 ^ (- e + 1))%Z in
        if (n =? 0)%Z then (if s then neg_zero else zero) else Z2float n
  | _ => x
  end.

(** [Math.max] of two numbers: [NaN] if either is, and [+0] above [-0]. *)
Definition Math_max (a b : float) : float :=
  if is_nan a || is_nan b then nan
  else if a <? b then b
  else if b <? a then a
  else if get_sign a then b else a.

(** The binary64 value nearest to the fraction [n / d], with sign [s]:
    what [Number] returns for a decimal string denoting that fraction. *)
Definition nearest_ratio (s : bool) (n d : positive) : float :=
  SF2Prim (SFdiv prec emax (S754_finite s n 0) (S754_finite false d 0)).

(** [Number(x.toFixed(2))]. [toFixed(2)] prints the integer [n] for which
    [n / 100] is closest to the exact value of [|x|], the larger one on a
    tie, with a minus sign when [x < 0]; [Number] reads the string back.
    Values of magnitude 2^52 and above are integers and are read back
    unchanged (so are the strings of [NaN] and the infinities). *)
Definition toFixed2 (x : float) : float :=
  match Prim2SF x with
  | S754_finite s m e =>
      if (0 <=? e)%Z then x
      else
        let n := ((Zpos m * 200 + 2 ^ (- e)) / 2 ^ (- e + 1))%Z in
        match n with
        | Zpos p => nearest_ratio s p 100
        | _ => if s then neg_zero else zero
        end
  | S754_zero _ => zero
  | _ => x
  end.

End JsNumber.

Import JsNumber.

(** ** [calculateConversion]: the elasticity curve *)

Module Curve.

Record ConversionPoint := mkPoint {
  price : float;
  estimatedSales : float;
  revenue : float
}.

(** The array [points] being filled, together with a ghost log of the
    divisors of the divisions the loop has executed. *)
Record loop_state := mkLoop {
  points : list ConversionPoint;
  divisors : list float
}.

Definition range : Z := 5.
Definition elasticity : float := 1.5.

(** [const step = currentPrice * 0.05] *)
Definition step (currentPrice : float) : float := currentPrice * 0.05.

(** [const p = currentPrice + (i * step)] *)
Definition candidate (currentPrice : float) (i : Z) : float :=
  currentPrice + Z2float i * step currentPrice.

(** The object pushed for offset [i]. *)
Definition point (currentPrice : float) (i : Z) : ConversionPoint :=
  let p := candidate currentPrice i in
  let pctChangePrice := (p - currentPrice) / currentPrice in
  let pctChangeDemand := - elasticity * pctChangePrice in
  let estimatedSales := Math_max 0 (Math_round (100 * (1 + pctChangeDemand))) in
  {| price := toFixed2 p;
     estimatedSales := estimatedSales;
     revenue := toFixed2 (p * estimatedSales) |}.

(** [for (let i = ...; i <= range; i++) { ... }], with [fuel] bounding the
    number of iterations. [if (p <= cost) continue;] skips the rest of the
    body. *)
Fixpoint for_loop (fuel : nat) (i : Z) (currentPrice cost : float)
    (st : loop_state) : loop_state :=
  match fuel with
  | O => st
  | S fuel' =>
      if (i <=? range)%Z then
        let p := candidate currentPrice i in
        if p <=? cost then for_loop fuel' (i + 1)%Z currentPrice cost st
        else
          for_loop fuel' (i + 1)%Z currentPrice cost
            {| points := points st ++ [point currentPrice i];
               divisors := divisors st ++ [currentPrice] |}
      else st
  end.

(** Eleven iterations take [i] from [-range] past [range]. *)
Definition iterations : nat := Z.to_nat (range - (- range) + 1).

Definition run (currentPrice cost : float) : loop_state :=
  for_loop iterations (- range) currentPrice cost
    {| points := []; divisors := [] |}.

Definition calculateConversion (currentPrice cost : float)
    : list ConversionPoint :=
  points (run currentPrice cost).

(** The offsets the loop visits, in order. *)
Definition offsets : list Z := [-5; -4; -3; -2; -1; 0; 1; 2; 3; 4; 5]%Z.

(** The values [i] takes when the loop is entered at [i] with [fuel]. *)
Fixpoint visited (fuel : nat) (i : Z) : list Z :=
  match fuel with
  | O => []
  | S fuel' => if (i <=? range)%Z then i :: visited fuel' (i + 1)%Z else []
  end.

(** The test that lets offset [i] through: [p <= cost] is false. *)
Definition emitted (currentPrice cost : float) (i : Z) : bool :=
  negb (candidate currentPrice i <=? cost).

(** One pass through the loop body. *)
Definition body (currentPrice cost : float) (st : loop_state) (i : Z)
    : loop_state :=
  if emitted currentPrice cost i then
    {| points := points st ++ [point currentPrice i];
       divisors := divisors st ++ [currentPrice] |}
  else st.

End Curve.

(** ** Values of the script *)

Module Js.

(** What [JSON.parse] returns, and [undefined], which property reads
    produce. An object is its list of own properties. *)
Inductive value :=
| VUndefined
| VNull
| VBool (b : bool)
| VNumber (x : float)
| VString (s : string)
| VArray (items : list value)
| VObject (props : list (string * value)).

Fixpoint lookup (k : string) (props : list (string * value)) : value :=
  match props with
  | [] => VUndefined
  | (k', v) :: rest => if String.eqb k k' then v else lookup k rest
  end.

(** The property read [v.k], for the property names this program reads
    (none of them is defined on the prototypes of numbers, booleans,
    strings or arrays). [None]: a [TypeError] is thrown, as reading a
    property of [null] or [undefined] does. *)
Definition get (v : value) (k : string) : option value :=
  match v with
  | VUndefined | VNull => None
  | VObject props => Some (lookup k props)
  | _ => Some VUndefined
  end.

(** [ToBoolean] *)
Definition truthy (v : value) : bool :=
  match v with
  | VUndefined | VNull => false
  | VBool b => b
  | VNumber x => negb (is_zero x || is_nan x)
  | VString s => match s with
                 | EmptyString => false
                 | _ => true
                 end
  | VArray _ | VObject _ => true
  end.

(** [v || d] *)
Definition or_else (v d : value) : value := if truthy v then v else d.

(** Is the value the number zero (of either sign)? *)
Definition is_js_zero (v : value) : bool :=
  match v with
  | VNumber x => is_zero x
  | _ => false
  end.

(** What the engine supplies and the repository does not define: the
    numeric reading of a string ([StringToNumber], total), the numeric
    reading of an array or object ([ToPrimitive] then [ToNumber]; [None]
    when [ToPrimitive] throws), and the successive results of
    [Math.random()]. *)
Class Runtime := {
  StringToNumber : string -> float;
  ObjectToNumber : value -> option float;
  random_draws : nat -> float
}.

(** [ToNumber] on the primitive kinds other than strings; [None] for the
    kinds it does not cover. *)
Definition PrimitiveToNumber (v : value) : option float :=
  match v with
  | VUndefined => Some nan
  | VNull => Some 0
  | VBool b => Some (if b then 1 else 0)
  | VNumber x => Some x
  | _ => None
  end.

(** [ToNumber]; [None]: a [TypeError] is thrown. *)
Definition ToNumber `{Runtime} (v : value) : option float :=
  match v with
  | VString s => Some (StringToNumber s)
  | VArray _ | VObject _ => ObjectToNumber v
  | _ => PrimitiveToNumber v
  end.

(** Computations of the [try] block: they read the cursor into the
    sequence of random draws and may throw ([None]). *)
Definition M (A : Type) : Type := nat -> option (A * nat).

Definition ret {A} (a : A) : M A := fun n => Some (a, n).

Definition bind {A B} (c : M A) (k : A -> M B) : M B :=
  fun n => match c n with
           | Some (a, n') => k a n'
           | None => None
           end.

Definition throw {A} : M A := fun _ => None.

Definition lift {A} (o : option A) : M A :=
  match o with
  | Some a => ret a
  | None => throw
  end.

Definition Math_random `{Runtime} : M float :=
  fun n => Some (random_draws n, S n).

Fixpoint mapM {A B} (f : A -> M B) (l : list A) : M (list B) :=
  match l with
  | [] => ret []
  | a :: l' => bind (f a) (fun b => bind (mapM f l') (fun bs => ret (b :: bs)))
  end.

(** [Array.from({ length: n }, f)] for a callback that ignores its
    arguments. *)
Fixpoint replicateM {A} (n : nat) (c : M A) : M (list A) :=
  match n with
  | O => ret []
  | S n' => bind c (fun a => bind (replicateM n' c) (fun l => ret (a :: l)))
  end.

End Js.

Import Js.

Declare Scope js_scope.
Delimit Scope js_scope with js.
Notation "x <- c ;; k" := (bind c (fun x => k))
  (at level 61, c at next level, right associativity) : js_scope.

(** ** [analyzePrice]: shaping the AI payload *)

Module Pricing.

#[local] Open Scope string_scope.
#[local] Open Scope float_scope.
#[local] Open Scope js_scope.

Record ProductInput := mkInput {
  name : string;
  cost : float;
  currency : string;
  location : string;
  category : string;
  desiredMargin : float
}.

Inductive StockStatus := InStock | LowStock | OutOfStock.

(** The fields that copy a property of the payload hold whatever value the
    payload had there. [competitor_name] and [competitor_price] are the
    [name] and [price] of the source; [ProductInput] has a [name] too. *)
Record Competitor := mkCompetitor {
  competitor_name : value;
  competitor_price : value;
  stockStatus : StockStatus;
  trend : value;
  history : list float
}.

(** [seasonality_explanation] is the [explanation] of the source, which
    [PricingResult] has too. *)
Record Seasonality := mkSeasonality {
  signal : value;
  adjustmentFactor : value;
  seasonality_explanation : value
}.

Record PriceRange := mkRange {
  min : value;
  suggested : value;
  premium : value
}.

Record PricingResult := mkResult {
  recommendedPrice : value;
  priceRange : PriceRange;
  profitMargin : float;
  confidenceScore : value;
  explanation : value;
  evidence : value;
  strategy : value;
  seasonality : Seasonality;
  competitors : list Competitor
}.

(** The conditional
    [Math.random() > 0.8 ? 'Low Stock'
       : (Math.random() > 0.9 ? 'Out of Stock' : 'In Stock')]
    as a function of the first draw [u1] and of the draw [u2] that is made
    when the first test fails, over any kind of number with its [>] and
    its readings [p8], [p9] of the literals. *)
Section StockChoice.
Context {num : Type} (gt : num -> num -> bool) (p8 p9 : num).

Definition chooseStock (u1 u2 : num) : StockStatus :=
  if gt u1 p8 then LowStock
  else if gt u2 p9 then OutOfStock else InStock.
End StockChoice.

(** [a > b] on numbers *)
Definition gtb (a b : float) : bool := b <? a.

Section WithRuntime.
Context `{Runtime}.

Definition drawStockStatus : M StockStatus :=
  u1 <- Math_random ;;
  if gtb u1 0.8 then ret LowStock
  else
    u2 <- Math_random ;;
    ret (if gtb u2 0.9 then OutOfStock else InStock).

(** One element of [history]:
    [const variation = (Math.random() - 0.5) * (c.price * 0.1);
     return Number((c.price + variation).toFixed(2));]
    When [c.price] is a string, an array or an object, [+] produces a
    string, which has no [toFixed]: the call throws. *)
Definition historySample (c_price : value) : M float :=
  u <- Math_random ;;
  x <- lift (PrimitiveToNumber c_price) ;;
  let variation := (u - 0.5) * (x * 0.1) in
  ret (toFixed2 (x + variation)).

(** The callback of [(data.competitors || []).map(...)]. *)
Definition mapCompetitor (c : value) : M Competitor :=
  c_name <- lift (get c "name") ;;
  c_price <- lift (get c "price") ;;
  status <- drawStockStatus ;;
  c_trend <- lift (get c "trend") ;;
  samples <- replicateM 6 (historySample c_price) ;;
  ret {| competitor_name := c_name;
         competitor_price := c_price;
         stockStatus := status;
         trend := or_else c_trend (VString "stable");
         history := rev samples |}.

(** [x.map(f)]: only an array has a [map] to call. *)
Definition array_map {B} (f : value -> M B) (x : value) : M (list B) :=
  match x with
  | VArray items => mapM f items
  | _ => throw
  end.

(** The [try] block after [JSON.parse]. *)
Definition normalize (data : value) (input : ProductInput)
    : M PricingResult :=
  d_competitors <- lift (get data "competitors") ;;
  competitors <- array_map mapCompetitor (or_else d_competitors (VArray [])) ;;
  d_recommendedPrice <- lift (get data "recommendedPrice") ;;
  d_minPrice <- lift (get data "minPrice") ;;
  d_premiumPrice <- lift (get data "premiumPrice") ;;
  r <- lift (ToNumber d_recommendedPrice) ;;
  d_confidenceScore <- lift (get data "confidenceScore") ;;
  d_explanation <- lift (get data "explanation") ;;
  d_evidence <- lift (get data "evidence") ;;
  d_strategy <- lift (get data "strategy") ;;
  d_seasonalitySignal <- lift (get data "seasonalitySignal") ;;
  d_seasonalityFactor <- lift (get data "seasonalityFactor") ;;
  d_seasonalityExplanation <- lift (get data "seasonalityExplanation") ;;
  ret {| recommendedPrice := d_recommendedPrice;
         priceRange := {| min := d_minPrice;
                          suggested := d_recommendedPrice;
                          premium := d_premiumPrice |};
         profitMargin := ((r - cost input) / r) * 100;
         confidenceScore := d_confidenceScore;
         explanation := d_explanation;
         evidence := d_evidence;
         strategy := d_strategy;
         seasonality :=
           {| signal := d_seasonalitySignal;
              adjustmentFactor := or_else d_seasonalityFactor (VNumber 1.0);
              seasonality_explanation := d_seasonalityExplanation |};
         competitors := competitors |}.

(** The [catch] block. *)
Definition fallback (input : ProductInput) : PricingResult :=
  let basePrice := cost input * (1 + (desiredMargin input / 100)) in
  {| recommendedPrice := VNumber (Math_round (basePrice * 100) / 100);
     priceRange := {| min := VNumber basePrice;
                      suggested := VNumber basePrice;
                      premium := VNumber (basePrice * 1.2) |};
     profitMargin := desiredMargin input;
     confidenceScore := VNumber 50;
     explanation :=
       VString "Fallback pricing calculation due to service interruption.";
     evidence := VArray [VString "Cost basis calculation"];
     strategy := VString "Cost-Plus";
     seasonality := {| signal := VString "Neutral";
                       adjustmentFactor := VNumber 1;
                       seasonality_explanation := VString "No data" |};
     competitors := [] |}.

(** How [await genAI.models.generateContent(...)] followed by
    [JSON.parse(response.text || "{}")] ends: it throws (the call or the
    parse failed), or it yields the parsed payload ([{}] for a response
    without text). *)
Inductive ai_outcome :=
| Failed
| Payload (data : value).

(** The try block as run by [analyzePrice]: the draws are counted from
    the first one it makes. *)
Definition attempt (o : ai_outcome) (input : ProductInput)
    : option PricingResult :=
  match o with
  | Failed => None
  | Payload data =>
      match normalize data input 0%nat with
      | Some (r, _) => Some r
      | None => None
      end
  end.

Definition analyzePrice (o : ai_outcome) (input : ProductInput)
    : PricingResult :=
  match attempt o input with
  | Some r => r
  | None => fallback input
  end.

(** The margin formula evaluated on a result: from its [recommendedPrice]
    read as a number [r], [((r - cost) / r) * 100]. *)
Definition margin_of (recommended : value) (cost : float) : option float :=
  match ToNumber recommended with
  | Some r => Some (((r - cost) / r) * 100)
  | None => None
  end.

(** A competitor entry on which the callback throws: the entry is [null]
    or [undefined], or its [price] is a string, an array or an object. *)
Definition bad_competitor (c : value) : bool :=
  match get c "price" with
  | None => true
  | Some c_price =>
      match PrimitiveToNumber c_price with
      | None => true
      | Some _ => false
      end
  end.

(** The payloads on which the [try] block throws. *)
Definition rejects (data : value) : bool :=
  match get data "competitors", get data "recommendedPrice" with
  | Some d_competitors, Some d_recommendedPrice =>
      match or_else d_competitors (VArray []) with
      | VArray items => existsb bad_competitor items
      | _ => true
      end
      || match ToNumber d_recommendedPrice with
         | None => true
         | Some _ => false
         end
  | _, _ => true
  end.

End WithRuntime.

(** The property [data.k] of a payload that can be read. *)
Definition prop (data : value) (k : string) : value :=
  match get data k with
  | Some v => v
  | None => VUndefined
  end.

(** The object the [try] block returns, given the mapped competitors and
    the numeric reading [r] of [data.recommendedPrice]. *)
Definition success_result (data : value) (input : ProductInput)
    (competitors : list Competitor) (r : float) : PricingResult :=
  {| recommendedPrice := prop data "recommendedPrice";
     priceRange := {| min := prop data "minPrice";
                      suggested := prop data "recommendedPrice";
                      premium := prop data "premiumPrice" |};
     profitMargin := ((r - cost input) / r) * 100;
     confidenceScore := prop data "confidenceScore";
     explanation := prop data "explanation";
     evidence := prop data "evidence";
     strategy := prop data "strategy";
     seasonality :=
       {| signal := prop data "seasonalitySignal";
          adjustmentFactor := or_else (prop data "seasonalityFactor") (VNumber 1.0);
          seasonality_explanation := prop data "seasonalityExplanation" |};
     competitors := competitors |}.

(** Arrays and objects, as opposed to primitive values. *)
Definition is_reference (v : value) : bool :=
  match v with
  | VArray _ | VObject _ => true
  | _ => false
  end.

(** A runtime for the closed examples. Their payloads hold numbers where
    numbers are read, so the two coercions are not consulted: a string
    other than the empty one reads as [NaN] here, and so does an array or
    object. The draws are 0.5, 0.95, then 0.25 for ever. *)
Definition example_runtime : Runtime :=
  {| StringToNumber := fun s => match s with
                                | EmptyString => 0
                                | _ => nan
                                end;
     ObjectToNumber := fun _ => Some nan;
     random_draws := fun n =>
       match n with
       | O => 0.5
       | S O => 0.95
       | _ => 0.25
       end |}.

Definition example_input (c margin : float) : ProductInput :=
  {| name := "Widget"; cost := c; currency := "USD"; location := "Austin";
     category := EmptyString; desiredMargin := margin |}.

(** The payload [{"recommendedPrice": 0, "competitors": []}]. *)
Definition zero_price_payload : value :=
  VObject [("recommendedPrice", VNumber 0); ("competitors", VArray [])].

(** The payload [{"recommendedPrice": 12, "seasonalityFactor": 0}]. *)
Definition zero_factor_payload : value :=
  VObject [("recommendedPrice", VNumber 12); ("seasonalityFactor", VNumber 0)].

End Pricing.

(** ** The stock status as a function of uniform draws *)

Module StockMeasure.

Import Pricing.

#[local] Open Scope Q_scope.

(** [a > b] on rationals *)
Definition Qgtb (a b : Q) : bool := negb (Qle_bool a b).

(** The conditional of [drawStockStatus] on exact draws, the literals
    [0.8] and [0.9] read as the decimals they denote. *)
Definition stockOfDraws (u1 u2 : Q) : StockStatus :=
  chooseStock Qgtb (8 # 10) (9 # 10) u1 u2.

(** The unit square of two draws, cut into a 10 x 10 grid of open cells
    [(k1/10, (k1+1)/10) x (k2/10, (k2+1)/10)], each of measure 1/100; the
    grid lines have measure zero. *)
Definition in_cell (k : Z) (u : Q) : Prop := (k # 10) < u /\ u < (k + 1 # 10).

Definition midpoint (k : Z) : Q := (2 * k + 1 # 20).

Definition indices : list Z := [0; 1; 2; 3; 4; 5; 6; 7; 8; 9]%Z.

Definition cells : list (Z * Z) := list_prod indices indices.

Definition status_eqb (a b : StockStatus) : bool :=
  match a, b with
  | InStock, InStock | LowStock, LowStock | OutOfStock, OutOfStock => true
  | _, _ => false
  end.

(** The measure of the draws that give status [s]: the number of cells on
    which the status is [s], times the measure of a cell. *)
Definition measure (s : StockStatus) : Q :=
  Z.of_nat
    (List.length
       (filter
          (fun c => status_eqb (stockOfDraws (midpoint (fst c)) (midpoint (snd c))) s)
          cells)) # 100.

End StockMeasure.

(** ** Binary64 values, for the proofs about signs *)

Module Binary64.

#[local] Open Scope Z_scope.

(** Zero, negative or minus infinity. *)
Definition nonpos (x : spec_float) : bool :=
  match x with
  | S754_zero _ => true
  | S754_finite s _ _ => s
  | S754_infinity s => s
  | S754_nan => false
  end.

(** Zero, positive or plus infinity. *)
Definition nonneg (x : spec_float) : bool :=
  match x with
  | S754_zero _ => true
  | S754_finite s _ _ => negb s
  | S754_infinity s => negb s
  | S754_nan => false
  end.

Definition not_finite (x : spec_float) : bool :=
  match x with
  | S754_infinity _ | S754_nan => true
  | _ => false
  end.

(** Not [NaN], and of sign [sx]. *)
Definition signed (sx : bool) (r : spec_float) : Prop :=
  match r with
  | S754_zero s | S754_infinity s | S754_finite s _ _ => s = sx
  | S754_nan => False
  end.

(** Magnitudes [m * 2^e] are compared after scaling by [2^K], which makes
    them integers for every exponent that occurs. *)
Definition K : Z := 1200.
Definition sc (m : positive) (e : Z) : Z := Zpos m * 2 ^ (e + K).

(** [r] is a zero, or a valid finite value of sign [sx] and of magnitude at
    most [mb * 2^eb]. *)
Definition le_bound (r : spec_float) (sx : bool) (mb : positive) (eb : Z)
    : Prop :=
  r = S754_zero sx \/
  exists m' e', r = S754_finite sx m' e' /\ -1074 <= e' <= 971 /\
                Zpos (digits2_pos m') <= 53 /\ sc m' e' <= sc mb eb.

(** The literal [0.05]. *)
Definition mc : positive := 7205759403792794.
Definition C005 : spec_float := S754_finite false mc (-57).

(** [step] for the negative price [- m * 2^e]. *)
Definition step_sf (m : positive) (e : Z) : spec_float :=
  SFmul 53 1024 (S754_finite true m e) C005.

(** [candidate] for that price and the offset [fi]. *)
Definition cand_sf (fi : spec_float) (m : positive) (e : Z) : spec_float :=
  SFadd 53 1024 (S754_finite true m e) (SFmul 53 1024 fi (step_sf m e)).

(** The magnitude in units of [2^-1074], and a bound on that of [step]. *)
Definition units (m : positive) (e : Z) : Z := Zpos m * 2 ^ (e + 1074).

Definition b1 (m : positive) (e : Z) : positive :=
  Z.to_pos (units m e * Zpos mc / 2 ^ 57 + 1).

End Binary64.

(** ** The dashboard: what is drawn from the curve *)

Module Dashboard.

Import Curve.

(** [Math.max(...xs)]: minus infinity for no argument, [NaN] as soon as
    an argument is, [+0] above [-0]. *)
Definition Math_max_spread (xs : list float) : float :=
  fold_left Math_max xs neg_infinity.

(** "Optimal Revenue":
    [Math.max(...conversionData.map(d => d.revenue))]. *)
Definition optimalRevenue (conversionData : list ConversionPoint) : float :=
  Math_max_spread (map revenue conversionData).

(** The rectangle of one bar of [RevenueChart]. *)
Record Bar := mkBar {
  bar_x : float;
  bar_y : float;
  bar_width : float;
  bar_height : float
}.

Definition chart_width : float := 600.
Definition chart_height : float := 250.
Definition padding : float := 40.

(** The callback of [data.map((d, i) => ...)] in [RevenueChart], for the
    maximal revenue [maxRev] and the number [n] of points. *)
Definition bar_of (maxRev n : float) (i : nat) (d : ConversionPoint) : Bar :=
  let barHeight := (revenue d / maxRev) * (chart_height - padding) in
  let barWidth := (chart_width / n) * 0.6 in
  let x := Z2float (Z.of_nat i) * (chart_width / n) + padding in
  let y := chart_height - barHeight in
  {| bar_x := x; bar_y := y; bar_width := barWidth; bar_height := barHeight |}.

Fixpoint map_indexed {A B} (f : nat -> A -> B) (i : nat) (l : list A)
    : list B :=
  match l with
  | [] => []
  | a :: l' => f i a :: map_indexed f (S i) l'
  end.

(** [RevenueChart]: [None] is the [null] returned for an empty [data];
    otherwise the bars, in the order of the points. *)
Definition RevenueChart (data : list ConversionPoint) : option (list Bar) :=
  match data with
  | [] => None
  | _ :: _ =>
      let maxRev := Math_max_spread (map revenue data) in
      let n := Z2float (Z.of_nat (List.length data)) in
      Some (map_indexed (bar_of maxRev n) 0 data)
  end.

End Dashboard.

(** ** The runtime with other draws *)

Module Draws.

Import Pricing.

(** The runtime [R] with the results of [Math.random()] replaced. *)
Definition with_draws (R : Runtime) (draws : nat -> float) : Runtime :=
  {| StringToNumber := @StringToNumber R;
     ObjectToNumber := @ObjectToNumber R;
     random_draws := draws |}.

(** One element of [history], for the price [x] and the draw [u]. *)
Definition sample (x u : float) : float :=
  toFixed2 (x + (u - 0.5) * (x * 0.1)).

#[local] Open Scope string_scope.

(** The payload
    [{"recommendedPrice": 25, "competitors": [{"name": "Acme", "price": 20,
    "trend": "up"}, {"name": "Bolt", "price": 30}]}], for the closed
    examples. *)
Definition market_payload : value :=
  VObject
    [ ("recommendedPrice", VNumber 25);
      ("competitors",
       VArray
         [ VObject [("name", VString "Acme"); ("price", VNumber 20);
                    ("trend", VString "up")];
           VObject [("name", VString "Bolt"); ("price", VNumber 30)] ]) ].

End Draws.

(** ** [RuleEngine]: the list of automation rules *)

Module Rules.

#[local] Open Scope string_scope.

(** [value: number | string] *)
Inductive RuleValue :=
| NumberValue (x : float)
| StringValue (s : string).

Record AutomationRule := mkRule {
  id : string;
  conditionField : string;
  operator : string;
  value : RuleValue;
  action : string;
  active : bool
}.

(** [Partial<AutomationRule>], the state [newRule] of the form (it has no
    [id]). *)
Record RuleDraft := mkDraft {
  draft_conditionField : option string;
  draft_operator : option string;
  draft_value : option RuleValue;
  draft_action : option string;
  draft_active : option bool
}.

Record RuleState := mkRuleState {
  rules : list AutomationRule;
  isModalOpen : bool;
  newRule : RuleDraft
}.

(** The draft the form starts from and is reset to. *)
Definition blank_rule_draft : RuleDraft :=
  {| draft_conditionField := Some "margin";
     draft_operator := Some "<";
     draft_value := Some (StringValue EmptyString);
     draft_action := Some EmptyString;
     draft_active := Some true |}.

Definition initial_rules : list AutomationRule :=
  [ {| id := "1"; conditionField := "margin"; operator := "<";
       value := NumberValue 15; action := "Alert User"; active := true |};
    {| id := "2"; conditionField := "competitor_stock"; operator := "=";
       value := StringValue "Out of Stock"; action := "Increase Price 5%";
       active := true |} ].

Definition initial_rule_state : RuleState :=
  {| rules := initial_rules; isModalOpen := false; newRule := blank_rule_draft |}.

(** [!s] for an optional string: absent or empty. *)
Definition string_missing (s : option string) : bool :=
  match s with
  | None => true
  | Some EmptyString => true
  | Some _ => false
  end.

(** [!v] for an optional rule value: absent, the empty string, zero or
    [NaN]. *)
Definition value_missing (v : option RuleValue) : bool :=
  match v with
  | None => true
  | Some (StringValue EmptyString) => true
  | Some (StringValue _) => false
  | Some (NumberValue x) => is_zero x || is_nan x
  end.

(** [rules.map(r => r.id === id ? { ...r, active: !r.active } : r)] *)
Definition toggled (i : string) (r : AutomationRule) : AutomationRule :=
  if String.eqb (id r) i then
    {| id := id r; conditionField := conditionField r;
       operator := operator r; value := value r; action := action r;
       active := negb (active r) |}
  else r.

Definition toggleRule (i : string) (st : RuleState) : RuleState :=
  {| rules := map (toggled i) (rules st);
     isModalOpen := isModalOpen st;
     newRule := newRule st |}.

(** [handleCreateRule]; [fresh] is the string that
    [Math.random().toString(36).substr(2, 9)] evaluates to. *)
Definition handleCreateRule (fresh : string) (st : RuleState) : RuleState :=
  match draft_conditionField (newRule st), draft_operator (newRule st),
        draft_value (newRule st), draft_action (newRule st) with
  | Some c, Some o, Some v, Some a =>
      if string_missing (Some c) || string_missing (Some o)
         || value_missing (Some v) || string_missing (Some a)
      then st
      else
        {| rules := rules st ++
                    [ {| id := fresh; conditionField := c; operator := o;
                         value := v; action := a; active := true |} ];
           isModalOpen := false;
           newRule := blank_rule_draft |}
  | _, _, _, _ => st
  end.

(** What the user can do in [RuleEngine]: open or close the dialog, change
    a field of the form ([e.target.value] is a string), submit it, press
    the button of the rule [i]. *)
Inductive RuleEvent :=
| OpenRuleModal
| CloseRuleModal
| SetConditionField (s : string)
| SetOperator (s : string)
| SetValue (s : string)
| SetAction (s : string)
| SubmitRule (fresh : string)
| ToggleRule (i : string).

Definition set_draft (f : RuleDraft -> RuleDraft) (st : RuleState)
    : RuleState :=
  {| rules := rules st; isModalOpen := isModalOpen st;
     newRule := f (newRule st) |}.

Definition rule_step (st : RuleState) (e : RuleEvent) : RuleState :=
  match e with
  | OpenRuleModal =>
      {| rules := rules st; isModalOpen := true; newRule := newRule st |}
  | CloseRuleModal =>
      {| rules := rules st; isModalOpen := false; newRule := newRule st |}
  | SetConditionField s =>
      set_draft (fun d => {| draft_conditionField := Some s;
                             draft_operator := draft_operator d;
                             draft_value := draft_value d;
                             draft_action := draft_action d;
                             draft_active := draft_active d |}) st
  | SetOperator s =>
      set_draft (fun d => {| draft_conditionField := draft_conditionField d;
                             draft_operator := Some s;
                             draft_value := draft_value d;
                             draft_action := draft_action d;
                             draft_active := draft_active d |}) st
  | SetValue s =>
      set_draft (fun d => {| draft_conditionField := draft_conditionField d;
                             draft_operator := draft_operator d;
                             draft_value := Some (StringValue s);
                             draft_action := draft_action d;
                             draft_active := draft_active d |}) st
  | SetAction s =>
      set_draft (fun d => {| draft_conditionField := draft_conditionField d;
                             draft_operator := draft_operator d;
                             draft_value := draft_value d;
                             draft_action := Some s;
                             draft_active := draft_active d |}) st
  | SubmitRule fresh => handleCreateRule fresh st
  | ToggleRule i => toggleRule i st
  end.

Definition run_rules (st : RuleState) (es : list RuleEvent) : RuleState :=
  fold_left rule_step es st.

(** A rule that the form can have made: its threshold is a non-empty
    string, its other fields are not empty, and it is active or paused. *)
Definition form_made (r : AutomationRule) : Prop :=
  (exists s, value r = StringValue s /\ s <> EmptyString) /\
  conditionField r <> EmptyString /\ operator r <> EmptyString /\
  action r <> EmptyString.

(** What holds of the list and of the form after any events: the two
    initial rules lead the list, with their thresholds; the rules behind
    them are made by the form; the threshold in the form is a string. *)
Definition rules_inv (st : RuleState) : Prop :=
  (exists r1 r2 rest,
     rules st = r1 :: r2 :: rest /\
     id r1 = "1" /\ value r1 = NumberValue 15 /\
     id r2 = "2" /\ value r2 = StringValue "Out of Stock" /\
     Forall form_made rest) /\
  (forall v, draft_value (newRule st) = Some v -> exists s, v = StringValue s).

End Rules.

(** ** [ScenarioBuilder]: the list of scenarios and the selection *)

Module Scenarios.

#[local] Open Scope string_scope.

Record Scenario := mkScenario {
  id : string;
  name : string;
  shippingIncrease : float;
  competitorDrop : float;
  demandChange : float
}.

(** The state [newScenario] of the form. *)
Record ScenarioDraft := mkScenarioDraft {
  draft_name : string;
  draft_shippingIncrease : float;
  draft_competitorDrop : float;
  draft_demandChange : float
}.

Record ScenarioState := mkScenarioState {
  scenarios : list Scenario;
  activeScenario : option string;
  isModalOpen : bool;
  newScenario : ScenarioDraft
}.

Definition blank_scenario_draft : ScenarioDraft :=
  {| draft_name := EmptyString; draft_shippingIncrease := 0;
     draft_competitorDrop := 0; draft_demandChange := 0 |}.

Definition initial_scenario_state : ScenarioState :=
  {| scenarios :=
       [ {| id := "1"; name := "Supply Chain Crisis"; shippingIncrease := 25;
            competitorDrop := 0; demandChange := 0 |};
         {| id := "2"; name := "Holiday Rush"; shippingIncrease := 5;
            competitorDrop := 5; demandChange := 20 |} ];
     activeScenario := None;
     isModalOpen := false;
     newScenario := blank_scenario_draft |}.

(** [s.id === activeScenario] *)
Definition is_active (a : option string) (s : Scenario) : bool :=
  match a with
  | Some i => String.eqb (id s) i
  | None => false
  end.

(** [handleCreateScenario]; [fresh] is the string that
    [Math.random().toString(36).substr(2, 9)] evaluates to. *)
Definition handleCreateScenario (fresh : string) (st : ScenarioState)
    : ScenarioState :=
  {| scenarios := scenarios st ++
                  [ {| id := fresh;
                       name := draft_name (newScenario st);
                       shippingIncrease := draft_shippingIncrease (newScenario st);
                       competitorDrop := draft_competitorDrop (newScenario st);
                       demandChange := draft_demandChange (newScenario st) |} ];
     activeScenario := activeScenario st;
     isModalOpen := false;
     newScenario := blank_scenario_draft |}.

(** The click on the button of the scenario [s]:
    [setActiveScenario(s.id === activeScenario ? null : s.id)]. *)
Definition select (s : Scenario) (st : ScenarioState) : ScenarioState :=
  {| scenarios := scenarios st;
     activeScenario := if is_active (activeScenario st) s then None
                       else Some (id s);
     isModalOpen := isModalOpen st;
     newScenario := newScenario st |}.

(** [const activeData = scenarios.find(s => s.id === activeScenario)] *)
Definition activeData (st : ScenarioState) : option Scenario :=
  find (is_active (activeScenario st)) (scenarios st).

(** What the user can do in [ScenarioBuilder]: press the button of the
    [k]-th scenario listed, open or close the dialog, edit the form
    ([Number(e.target.value)] is a number), submit it. *)
Inductive ScenarioEvent :=
| ClickScenario (k : nat)
| OpenScenarioModal
| CloseScenarioModal
| EditScenario (d : ScenarioDraft)
| SubmitScenario (fresh : string).

Definition scenario_step (st : ScenarioState) (e : ScenarioEvent)
    : ScenarioState :=
  match e with
  | ClickScenario k =>
      match nth_error (scenarios st) k with
      | Some s => select s st
      | None => st
      end
  | OpenScenarioModal =>
      {| scenarios := scenarios st; activeScenario := activeScenario st;
         isModalOpen := true; newScenario := newScenario st |}
  | CloseScenarioModal =>
      {| scenarios := scenarios st; activeScenario := activeScenario st;
         isModalOpen := false; newScenario := newScenario st |}
  | EditScenario d =>
      {| scenarios := scenarios st; activeScenario := activeScenario st;
         isModalOpen := isModalOpen st; newScenario := d |}
  | SubmitScenario fresh => handleCreateScenario fresh st
  end.

Definition run_scenarios (st : ScenarioState) (es : list ScenarioEvent)
    : ScenarioState :=
  fold_left scenario_step es st.

(** The selection, if any, is the [id] of a listed scenario. *)
Definition selection_listed (st : ScenarioState) : Prop :=
  match activeScenario st with
  | None => True
  | Some i => exists s, In s (scenarios st) /\ id s = i
  end.

End Scenarios.

(** ** [App]: the views and the analysis in flight *)

Module AppShell.

Import Pricing Draws.

Inductive ViewMode := Landing | InApp.
Inductive View := PricingView | ScenariosView | RulesView.

(** The state of [App]. [pending] is not a state of the script: it lists
    the inputs of the calls of [handleAnalyze] that are waiting at one of
    their [await]s. *)
Record AppState := mkApp {
  viewMode : ViewMode;
  currentView : View;
  pricingResult : option PricingResult;
  lastInput : option ProductInput;
  isAnalyzing : bool;
  pending : list ProductInput
}.

Definition initial_app_state : AppState :=
  {| viewMode := Landing; currentView := PricingView; pricingResult := None;
     lastInput := None; isAnalyzing := false; pending := [] |}.

(** [handleAnalyze] up to its first [await]. *)
Definition analyze_begin (data : ProductInput) (st : AppState) : AppState :=
  {| viewMode := viewMode st; currentView := currentView st;
     pricingResult := pricingResult st;
     lastInput := Some data;
     isAnalyzing := true;
     pending := pending st ++ [data] |}.

Fixpoint remove_nth {A} (k : nat) (l : list A) : list A :=
  match l, k with
  | [], _ => []
  | _ :: l', O => l'
  | a :: l', S k' => a :: remove_nth k' l'
  end.

(** [handleAnalyze] after [analyzePrice] has returned [result], for the
    [k]-th waiting call. *)
Definition analyze_end (k : nat) (result : PricingResult) (st : AppState)
    : AppState :=
  {| viewMode := viewMode st; currentView := currentView st;
     pricingResult := Some result;
     lastInput := lastInput st;
     isAnalyzing := false;
     pending := remove_nth k (pending st) |}.

(** What happens to [App]: the buttons of the header and of the sidebar,
    the submission of the form, the return of the analysis of the [k]-th
    waiting call (the service answering [o], [Math.random()] giving
    [draws]), and the button back to the form. *)
Inductive AppEvent :=
| Launch
| Home
| Navigate (v : View)
| Submit (data : ProductInput)
| Resolve (k : nat) (o : ai_outcome) (draws : nat -> float)
| Back.

Section WithRuntime.
Context (R : Runtime).

Definition app_step (st : AppState) (e : AppEvent) : AppState :=
  match e with
  | Launch =>
      {| viewMode := InApp; currentView := currentView st;
         pricingResult := pricingResult st; lastInput := lastInput st;
         isAnalyzing := isAnalyzing st; pending := pending st |}
  | Home =>
      match viewMode st with
      | Landing => st
      | InApp =>
          {| viewMode := Landing; currentView := currentView st;
             pricingResult := pricingResult st; lastInput := lastInput st;
             isAnalyzing := isAnalyzing st; pending := pending st |}
      end
  | Navigate v =>
      {| viewMode := viewMode st; currentView := v;
         pricingResult := pricingResult st; lastInput := lastInput st;
         isAnalyzing := isAnalyzing st; pending := pending st |}
  | Submit data => analyze_begin data st
  | Resolve k o draws =>
      match nth_error (pending st) k with
      | Some data =>
          analyze_end k (@analyzePrice (with_draws R draws) o data) st
      | None => st
      end
  | Back =>
      {| viewMode := viewMode st; currentView := currentView st;
         pricingResult := None; lastInput := lastInput st;
         isAnalyzing := isAnalyzing st; pending := pending st |}
  end.

(** Is the control of the event on the page? The form, with its submit
    button [disabled={isAnalyzing}], is rendered in the pricing view while
    there is no result; the dashboard, with its back button, when there is
    a result and an input; the sidebar in the application; the launch
    buttons on the landing page. *)
Definition offered (st : AppState) (e : AppEvent) : bool :=
  match e with
  | Launch =>
      match viewMode st with
      | Landing => true
      | InApp => false
      end
  | Home => true
  | Navigate _ =>
      match viewMode st with
      | InApp => true
      | Landing => false
      end
  | Submit _ =>
      match viewMode st, currentView st, pricingResult st with
      | InApp, PricingView, None => negb (isAnalyzing st)
      | _, _, _ => false
      end
  | Resolve k _ _ =>
      match nth_error (pending st) k with
      | Some _ => true
      | None => false
      end
  | Back =>
      match viewMode st, currentView st, pricingResult st, lastInput st with
      | InApp, PricingView, Some _, Some _ => true
      | _, _, _, _ => false
      end
  end.

(** The states reached by events, and by events offered by the page. *)
Inductive reachable : AppState -> Prop :=
| reach_init : reachable initial_app_state
| reach_step st e : reachable st -> reachable (app_step st e).

Inductive reachable_by_page : AppState -> Prop :=
| page_init : reachable_by_page initial_app_state
| page_step st e :
    reachable_by_page st -> offered st e = true ->
    reachable_by_page (app_step st e).

(** What holds of every state, whatever the order of the events: a
    result or a waiting call comes with an input. *)
Definition input_kept (st : AppState) : Prop :=
  (pricingResult st <> None -> lastInput st <> None) /\
  (pending st <> [] -> lastInput st <> None).

(** What holds when the events come from the controls of the page: no
    call waits and a result shown is the analysis of [lastInput], or one
    call waits, for [lastInput], and no result is shown. *)
Definition page_inv (st : AppState) : Prop :=
  match pending st with
  | [] =>
      isAnalyzing st = false /\
      forall r, pricingResult st = Some r ->
        exists d o draws,
          lastInput st = Some d /\ r = @analyzePrice (with_draws R draws) o d
  | [d] =>
      isAnalyzing st = true /\ lastInput st = Some d /\ pricingResult st = None
  | _ :: _ :: _ => False
  end.

End WithRuntime.

End AppShell.

(** ** Tactics *)

Module CurveTactics.

Import Curve.

(** Split a membership in [offsets] into its eleven cases. *)
Ltac offset_cases Hi :=
  unfold offsets in Hi; simpl in Hi;
  repeat (destruct Hi as [Hi|Hi]; [subst|]); try contradiction.

(** Replace the binary64 value of a literal offset by its normal form. *)
Ltac offset_value :=
  match goal with
  | |- context [Prim2SF (Z2float ?z)] =>
      let v := eval vm_compute in (Prim2SF (Z2float z)) in
      replace (Prim2SF (Z2float z)) with v by (vm_compute; reflexivity)
  end.

End CurveTactics.

Module FloatTactics.

(** Split the comparisons of exponents and mantissas that [SFcompare]
    makes, and close the cases that arithmetic decides. *)
Ltac cmp_cases :=
  repeat match goal with
  | H : context [Pos.compare_cont Eq ?a ?b] |- _ =>
      change (Pos.compare_cont Eq a b) with (Pos.compare a b) in H
  | |- context [Pos.compare_cont Eq ?a ?b] =>
      change (Pos.compare_cont Eq a b) with (Pos.compare a b)
  end;
  repeat match goal with
  | H : context [Z.compare ?a ?b] |- _ =>
      destruct (Z.compare_spec a b); cbn [CompOpp] in *
  | |- context [Z.compare ?a ?b] =>
      destruct (Z.compare_spec a b); cbn [CompOpp] in *
  | H : context [Pos.compare ?a ?b] |- _ =>
      destruct (Pos.compare_spec a b); cbn [CompOpp] in *
  | |- context [Pos.compare ?a ?b] =>
      destruct (Pos.compare_spec a b); cbn [CompOpp] in *
  end;
  try discriminate; try reflexivity; try lia.

End FloatTactics.

(** * Facts *)

(** ** The runtime's roundings on known values *)

Module JsNumberFacts.

(** Ties go up, also for negative values; a negative value that rounds to
    zero keeps its sign. *)
Example Math_round_ties :
  Math_round 62.5 = 63 /\ Math_round (-2.5) = -2 /\ Math_round 2.4 = 2 /\
  Math_round (-0.5) = neg_zero /\ Math_round 0.49999999999999994 = 0 /\
  Math_round nan = nan /\ Math_round infinity = infinity.
Proof. repeat split; vm_compute; reflexivity. Qed.

(** [toFixed] rounds the exact binary value: 1.005 is below 1.005 and
    8.345 above 8.345. *)
Example toFixed2_values :
  toFixed2 10.5105 = 10.51 /\ toFixed2 1.005 = 1 /\ toFixed2 8.345 = 8.35 /\
  toFixed2 0.125 = 0.13 /\ toFixed2 (-0.001) = neg_zero /\
  toFixed2 nan = nan /\ toFixed2 1e21 = 1e21.
Proof. repeat split; vm_compute; reflexivity. Qed.

Example Math_max_values :
  Math_max 0 (-3) = 0 /\ Math_max 0 7 = 7 /\ Math_max 0 neg_zero = 0 /\
  Math_max 0 nan = nan.
Proof. repeat split; vm_compute; reflexivity. Qed.

End JsNumberFacts.

(** ** Rounding of binary64 products and sums

    [binary_round_aux] is the rounding step of the specification of the
    binary64 operations. Below: what its shifts compute, that it keeps
    the sign it is given, and that it does not leave a representable upper
    bound of the exact value. *)

Module Binary64Facts.

Import Binary64.

#[local] Open Scope Z_scope.

(** [digits2_pos] counts binary digits. *)
Lemma digits2_size p : digits2_pos p = Pos.size p.
Proof. induction p; simpl; congruence. Qed.

Lemma digits2_bounds p :
  2 ^ (Zpos (digits2_pos p) - 1) <= Zpos p < 2 ^ Zpos (digits2_pos p).
Proof.
  rewrite digits2_size. split.
  - pose proof (Pos.size_le p) as H.
    assert (Hq : 2 ^ Z.pos (Pos.size p) <= 2 * Z.pos p).
    { rewrite <- Pos2Z.inj_pow. change (2 * Z.pos p) with (Z.pos p~0). lia. }
    replace (Z.pos (Pos.size p)) with (Z.pos (Pos.size p) - 1 + 1) in Hq by lia.
    rewrite Z.pow_add_r in Hq by lia. lia.
  - pose proof (Pos.size_gt p) as H. rewrite <- Pos2Z.inj_pow. lia.
Qed.


(** The iterated right shift of [shr]. *)
Lemma iter_pos_nat {A} (f : A -> A) p x :
  iter_pos f p x = Nat.iter (Pos.to_nat p) f x.
Proof.
  revert x. induction p; intros x; cbn [iter_pos].
  - rewrite !IHp. rewrite <- Nat.iter_add, <- Nat.iter_succ_r.
    f_equal. lia.
  - rewrite !IHp. rewrite <- Nat.iter_add. f_equal. lia.
  - reflexivity.
Qed.


Lemma shr_1_nonneg mrs :
  0 <= shr_m mrs ->
  shr_1 mrs = {| shr_m := shr_m mrs / 2; shr_r := Z.odd (shr_m mrs); shr_s := shr_r mrs || shr_s mrs |}.
Proof.
  destruct mrs as [m r s]; cbn [shr_m shr_r shr_s]. intros Hm.
  destruct m as [|p|p]; try lia.
  - reflexivity.
  - destruct p as [p|p|].
    + assert (E : Z.pos p~1 / 2 = Z.pos p).
      { symmetry. apply Z.div_unique with (r:=1); lia. }
      rewrite E. reflexivity.
    + assert (E : Z.pos p~0 / 2 = Z.pos p).
      { symmetry. apply Z.div_unique with (r:=0); lia. }
      rewrite E. reflexivity.
    + reflexivity.
Qed.

Lemma shr_iter_nonneg (M : Z) (n : nat) :
  0 <= M ->
  let mrs := Nat.iter (S n) shr_1 {| shr_m := M; shr_r := false; shr_s := false |} in
  shr_m mrs = M / 2 ^ Z.of_nat (S n) /\
  shr_r mrs = Z.testbit M (Z.of_nat n) /\
  (shr_s mrs = false <-> M mod 2 ^ Z.of_nat n = 0).
Proof.
  intros HM. induction n.
  - cbn zeta. rewrite Nat.iter_succ. cbn [Nat.iter nat_rect].
    rewrite shr_1_nonneg by (simpl; lia). cbn [shr_m shr_r shr_s].
    rewrite Z.bit0_odd. change (Z.pow_pos 2 1) with 2. repeat split; auto.
    intros _. apply Z.mod_1_r.
  - cbn zeta in *. remember (Nat.iter (S n) shr_1 _) as mrs eqn:E.
    rewrite Nat.iter_succ. rewrite <- E. destruct IHn as (Hm & Hr & Hs).
    assert (Hnn : 0 <= shr_m mrs).
    { rewrite Hm. apply Z.div_pos; [lia|]. apply Z.pow_pos_nonneg; lia. }
    rewrite shr_1_nonneg by exact Hnn. simpl shr_m; simpl shr_r; simpl shr_s.
    split; [|split].
    + rewrite Hm. rewrite Z.div_div by (try apply Z.pow_pos_nonneg; lia).
      f_equal. rewrite (Nat2Z.inj_succ (S n)). rewrite Z.pow_succ_r by lia. lia.
    + rewrite Hm. rewrite Z.testbit_odd. rewrite Z.shiftr_div_pow2 by lia. reflexivity.
    + rewrite Hr. rewrite orb_false_iff. rewrite Hs.
      rewrite (Nat2Z.inj_succ n).
      rewrite Z.testbit_false by lia.
      set (k := Z.of_nat n) in *.
      assert (Hk : 0 <= k) by lia.
      assert (Hp : 0 < 2 ^ k) by (apply Z.pow_pos_nonneg; lia).
      rewrite Z.pow_succ_r by lia.
      rewrite (Z.mul_comm 2), Z.rem_mul_r by lia.
      pose proof (Z.mod_pos_bound M (2^k) Hp).
      pose proof (Z.mod_pos_bound (M / 2^k) 2 ltac:(lia)).
      split; [intros [H1 H2]; rewrite H1, H2; lia | intros H3; split; nia].
Qed.

Lemma shr_exact M E n :
  0 <= M ->
  (n <= 0 -> shr {| shr_m := M; shr_r := false; shr_s := false |} E n
             = ({| shr_m := M; shr_r := false; shr_s := false |}, E)) /\
  (0 < n -> exists mrs,
      shr {| shr_m := M; shr_r := false; shr_s := false |} E n = (mrs, E + n) /\
      shr_m mrs = M / 2 ^ n /\ shr_r mrs = Z.testbit M (n - 1)).
Proof.
  intros HM. split; intros Hn.
  - destruct n; try lia; reflexivity.
  - destruct n as [|p|p]; try lia. unfold shr.
    eexists. split; [reflexivity|].
    rewrite iter_pos_nat.
    destruct (Pos2Nat.is_succ p) as [k Hk]. rewrite Hk.
    destruct (shr_iter_nonneg M k HM) as (H1 & H2 & _).
    rewrite H1, H2. rewrite <- Hk. rewrite positive_nat_Z.
    split; [reflexivity|]. f_equal. lia.
Qed.

Lemma rne_bounds mrs :
  let m2 := round_nearest_even (shr_m mrs) (loc_of_shr_record mrs) in
  shr_m mrs <= m2 <= shr_m mrs + 1 /\ (shr_r mrs = false -> m2 = shr_m mrs).
Proof.
  destruct mrs as [m [|] [|]]; cbn; repeat split; try lia; try discriminate;
    destruct (Z.even m); lia.
Qed.

Lemma testbit_low_zero M n :
  0 < n -> M mod 2 ^ n = 0 -> Z.testbit M (n - 1) = false.
Proof.
  intros Hn H. rewrite <- (Z.mod_pow2_bits_low M n (n - 1)) by lia.
  rewrite H. apply Z.bits_0.
Qed.

Lemma pow2_pos k : 0 <= k -> 0 < 2 ^ k.
Proof. intros; apply Z.pow_pos_nonneg; lia. Qed.

Lemma pow2_split a b : 0 <= a -> 0 <= b -> 2 ^ (a + b) = 2 ^ a * 2 ^ b.
Proof. intros; apply Z.pow_add_r; lia. Qed.

Lemma digits2_le p k : Zpos p < 2 ^ k -> Zpos (digits2_pos p) <= k.
Proof.
  intros H. pose proof (digits2_bounds p) as [Hl _].
  destruct (Z_lt_le_dec k (Zpos (digits2_pos p))) as [Hk|Hk]; [|lia].
  exfalso. assert (2 ^ k <= 2 ^ (Zpos (digits2_pos p) - 1)).
  { destruct (Z_lt_le_dec k 0).
    - rewrite Z.pow_neg_r in H by lia. lia.
    - apply Z.pow_le_mono_r; lia. }
  lia.
Qed.

Lemma fexp64 x : fexp 53 1024 x = Z.max (x - 53) (-1074).
Proof. reflexivity. Qed.

Lemma pow2_lt_exp a b : 0 <= b -> 2 ^ a < 2 ^ b -> a < b.
Proof.
  intros Hb H. destruct (Z_lt_le_dec a b); auto.
  exfalso. assert (2 ^ b <= 2 ^ a) by (apply Z.pow_le_mono_r; lia). lia.
Qed.

(** Rounding the exact value [M * 2^E] stays below any representable
    [mb * 2^eb] that is above it, and does not overflow then. *)
Lemma BRA_le sx M E mb eb :
  53 <= Zpos (digits2_pos M) ->
  Zpos (digits2_pos mb) <= 53 -> -1074 <= eb <= 971 ->
  - K <= E ->
  sc M E <= sc mb eb ->
  le_bound (binary_round_aux 53 1024 sx (Zpos M) E loc_Exact) sx mb eb.
Proof.
  intros Hd Hdb Heb HE Hle.
  set (d := Zpos (digits2_pos M)) in *.
  set (db := Zpos (digits2_pos mb)) in *.
  pose proof (digits2_bounds M) as [HMl HMu]. fold d in HMl, HMu.
  pose proof (digits2_bounds mb) as [Hbl Hbu]. fold db in Hbl, Hbu.
  unfold sc, K in *.
  assert (Hdb0 : 0 < db) by (unfold db; lia).
  assert (Hde : d + E <= db + eb).
  { assert (H1 : 2 ^ (d - 1 + (E + 1200)) < 2 ^ (db + (eb + 1200))).
    { rewrite (pow2_split (d - 1) (E + 1200)), (pow2_split db (eb + 1200)) by lia.
      pose proof (pow2_pos (E + 1200) ltac:(lia)) as Ha.
      pose proof (pow2_pos (eb + 1200) ltac:(lia)) as Hb.
      apply Z.le_lt_trans with (Zpos M * 2 ^ (E + 1200)).
      - apply Z.mul_le_mono_nonneg_r; lia.
      - eapply Z.le_lt_trans; [exact Hle|].
        apply Z.mul_lt_mono_pos_r; lia. }
    apply pow2_lt_exp in H1; lia. }
  set (e1 := Z.max (d + E - 53) (-1074)).
  assert (He1E : E <= e1) by (unfold e1; lia).
  assert (He1b : e1 <= eb) by (unfold e1; lia).
  assert (He1m : -1074 <= e1) by (unfold e1; lia).
  unfold binary_round_aux, shr_fexp.
  cbn [Zdigits2 shr_record_of_loc]. fold d. rewrite fexp64. fold e1.
  destruct (shr_exact (Zpos M) E (e1 - E) ltac:(lia)) as [HA HB].
  destruct (Z_le_gt_dec (e1 - E) 0) as [Hn|Hn].
  - rewrite (HA Hn). cbn [shr_m loc_of_shr_record round_nearest_even Zdigits2].
    fold d. rewrite fexp64. fold e1. rewrite (HA Hn). cbn [shr_m].
    replace (E <=? 1024 - 53) with true by (symmetry; apply Z.leb_le; lia).
    right. exists M, E. unfold sc, K. fold d. unfold e1 in *. repeat split; lia.
  - destruct (HB ltac:(lia)) as (mrs & Hs & Hm & Hr). rewrite Hs. clear HA HB Hs.
    replace (E + (e1 - E)) with e1 by lia.
    set (n := e1 - E) in *.
    pose proof (rne_bounds mrs) as [Hb2 Hex]. cbn zeta in Hb2, Hex.
    set (m2 := round_nearest_even (shr_m mrs) (loc_of_shr_record mrs)) in *.
    assert (HP : 0 < 2 ^ n) by (apply pow2_pos; lia).
    assert (Hm1 : 0 <= shr_m mrs) by (rewrite Hm; apply Z.div_pos; lia).
    (* the bound as an integer multiple of the rounding unit *)
    set (B' := Zpos mb * 2 ^ (eb - e1)).
    assert (HMB : Zpos M <= B' * 2 ^ n).
    { unfold B'. replace (eb + 1200) with ((eb - e1) + (n + (E + 1200))) in Hle by (unfold n; lia).
      rewrite (pow2_split (eb - e1)), (pow2_split n) in Hle by lia.
      pose proof (pow2_pos (E + 1200) ltac:(lia)).
      pose proof (pow2_pos (eb - e1) ltac:(lia)). nia. }
    assert (Hm2B : m2 <= B').
    { pose proof (Z.div_mod (Zpos M) (2 ^ n) ltac:(lia)) as Hdm.
      pose proof (Z.mod_pos_bound (Zpos M) (2 ^ n) HP) as Hrem.
      rewrite <- Hm in Hdm.
      destruct (Z.eq_dec (Zpos M mod 2 ^ n) 0) as [Hz|Hz].
      - rewrite Hex by (rewrite Hr; apply testbit_low_zero; lia). nia.
      - assert (shr_m mrs < B') by nia. lia. }
    assert (HscB : forall q e, 0 <= e - e1 -> Zpos q * 2 ^ (e - e1) <= m2 ->
                   Zpos q * 2 ^ (e + 1200) <= Zpos mb * 2 ^ (eb + 1200)).
    { intros q e He Hq.
      replace (e + 1200) with ((e - e1) + (e1 + 1200)) by lia.
      replace (eb + 1200) with ((eb - e1) + (e1 + 1200)) by lia.
      rewrite (pow2_split (e - e1)), (pow2_split (eb - e1)) by lia. fold B'.
      pose proof (pow2_pos (e1 + 1200) ltac:(lia)). nia. }
    destruct m2 as [|q|q] eqn:Em2; try lia.
    + (* rounded to zero *)
      cbn [Zdigits2]. rewrite fexp64.
      destruct (shr_exact 0 e1 (Z.max (0 + e1 - 53) (-1074) - e1) ltac:(lia)) as [HA _].
      rewrite HA by lia. cbn [shr_m]. left. reflexivity.
    + cbn [Zdigits2]. rewrite fexp64.
      set (d2 := Zpos (digits2_pos q)).
      pose proof (digits2_bounds q) as [Hql Hqu]. fold d2 in Hql, Hqu.
      destruct (shr_exact (Zpos q) e1 (Z.max (d2 + e1 - 53) (-1074) - e1) ltac:(lia)) as [HA HB].
      destruct (Z_le_gt_dec (Z.max (d2 + e1 - 53) (-1074) - e1) 0) as [Hn2|Hn2].
      * rewrite (HA Hn2). cbn [shr_m].
        replace (e1 <=? 1024 - 53) with true by (symmetry; apply Z.leb_le; lia).
        right. exists q, e1. unfold sc, K. fold d2. repeat split; try lia.
        apply HscB; [lia|]. replace (e1 - e1) with 0 by lia. simpl. lia.
      * destruct (HB ltac:(lia)) as (mrs2 & Hs2 & Hm2 & _). rewrite Hs2. clear HA HB Hs2.
        assert (En2 : Z.max (d2 + e1 - 53) (-1074) - e1 = d2 - 53) by lia.
        rewrite En2 in *. set (n2 := d2 - 53) in *.
        assert (HP2 : 0 < 2 ^ n2) by (apply pow2_pos; lia).
        pose proof (Z.div_mod (Zpos q) (2 ^ n2) ltac:(lia)) as Hdm.
        pose proof (Z.mod_pos_bound (Zpos q) (2 ^ n2) HP2) as Hrem.
        rewrite <- Hm2 in Hdm.
        assert (Hlo : 2 ^ 52 <= shr_m mrs2).
        { rewrite Hm2. apply Z.div_le_lower_bound; [lia|].
          rewrite <- (pow2_split n2 52) by lia. replace (n2 + 52) with (d2 - 1) by (unfold n2; lia). lia. }
        assert (Hhi : shr_m mrs2 < 2 ^ 53).
        { rewrite Hm2. apply Z.div_lt_upper_bound; [lia|].
          rewrite <- (pow2_split n2 53) by lia. replace (n2 + 53) with d2 by (unfold n2; lia). lia. }
        destruct (shr_m mrs2) as [|m''|m''] eqn:Emm; try lia.
        assert (Hv : Zpos m'' * 2 ^ (e1 + n2 + 1200) <= Zpos mb * 2 ^ (eb + 1200)).
        { apply HscB; [lia|]. replace (e1 + n2 - e1) with n2 by lia. nia. }
        assert (He'' : e1 + n2 <= eb).
        { assert (H1 : 2 ^ (52 + (e1 + n2 + 1200)) < 2 ^ (53 + (eb + 1200))).
          { rewrite (pow2_split 52), (pow2_split 53) by lia.
            pose proof (pow2_pos (e1 + n2 + 1200) ltac:(lia)).
            pose proof (pow2_pos (eb + 1200) ltac:(lia)).
            assert (Zpos mb < 2 ^ 53).
            { eapply Z.lt_le_trans; [exact Hbu|]. apply Z.pow_le_mono_r; lia. }
            nia. }
          apply pow2_lt_exp in H1; lia. }
        replace (e1 + n2 <=? 1024 - 53) with true by (symmetry; apply Z.leb_le; lia).
        right. exists m'', (e1 + n2). unfold sc, K. repeat split; try lia.
        apply digits2_le. exact Hhi.
Qed.

Lemma shr_fexp_nonneg m e :
  0 <= m -> 0 <= shr_m (fst (shr_fexp 53 1024 m e loc_Exact)).
Proof.
  intros Hm. unfold shr_fexp. cbn [shr_record_of_loc].
  set (n := fexp 53 1024 (Zdigits2 m + e) - e).
  destruct (shr_exact m e n Hm) as [HA HB].
  destruct (Z_le_gt_dec n 0) as [Hn|Hn].
  - rewrite (HA Hn). exact Hm.
  - destruct (HB ltac:(lia)) as (mrs & Hs & Hq & _). rewrite Hs. cbn [fst].
    rewrite Hq. apply Z.div_pos; [lia|]. apply pow2_pos. lia.
Qed.

(** Rounding keeps the sign and never gives [NaN]. *)
Lemma BRA_signed sx M E :
  signed sx (binary_round_aux 53 1024 sx (Zpos M) E loc_Exact).
Proof.
  unfold binary_round_aux.
  pose proof (shr_fexp_nonneg (Zpos M) E ltac:(lia)) as H1.
  destruct (shr_fexp 53 1024 (Zpos M) E loc_Exact) as [mrs' e'].
  cbn [fst] in H1.
  pose proof (rne_bounds mrs') as [Hb _]. cbn zeta in Hb.
  set (m2 := round_nearest_even (shr_m mrs') (loc_of_shr_record mrs')) in *.
  pose proof (shr_fexp_nonneg m2 e' ltac:(lia)) as H2.
  destruct (shr_fexp 53 1024 m2 e' loc_Exact) as [mrs'' e''].
  cbn [fst] in H2.
  destruct (shr_m mrs'') as [|p|p]; try lia.
  - reflexivity.
  - destruct (e'' <=? 1024 - 53); reflexivity.
Qed.

Lemma binary_round_signed sx m e :
  signed sx (binary_round 53 1024 sx m e).
Proof.
  unfold binary_round.
  destruct (shl_align m e (fexp 53 1024 (Z.pos (digits2_pos m) + e))) as [mz ez].
  apply BRA_signed.
Qed.

Lemma signed_true_nonpos r : signed true r -> nonpos r = true.
Proof. destruct r; simpl; intros; subst; auto; contradiction. Qed.

Lemma iter_xO_val m d : Zpos (Pos.iter xO m d) = Zpos m * 2 ^ Zpos d.
Proof.
  induction d using Pos.peano_ind.
  - simpl. lia.
  - rewrite Pos.iter_succ. rewrite Pos2Z.inj_xO, IHd.
    rewrite Pos2Z.inj_succ. rewrite Z.pow_succ_r by lia. lia.
Qed.

Lemma shl_align_val m e ez :
  ez <= e -> Zpos (fst (shl_align m e ez)) = Zpos m * 2 ^ (e - ez).
Proof.
  intros H. unfold shl_align.
  destruct (ez - e) as [|d|d] eqn:Ed; cbn [fst].
  - replace (e - ez) with 0 by lia. simpl. lia.
  - lia.
  - rewrite iter_xO_val. f_equal. f_equal. lia.
Qed.

(** A negative value plus a positive one of no greater magnitude. *)
Lemma SFadd_neg_pos m e mt et :
  - K <= e -> - K <= et -> sc mt et <= sc m e ->
  nonpos (SFadd 53 1024 (S754_finite true m e) (S754_finite false mt et)) = true.
Proof.
  intros He Het Hle. unfold SFadd.
  set (ez := Z.min e et).
  rewrite !shl_align_val by (unfold ez; lia).
  cbn [cond_Zopp].
  assert (Hz : - (Zpos m * 2 ^ (e - ez)) + Zpos mt * 2 ^ (et - ez) <= 0).
  { unfold sc, K in *.
    replace (e + 1200) with ((e - ez) + (ez + 1200)) in Hle by lia.
    replace (et + 1200) with ((et - ez) + (ez + 1200)) in Hle by lia.
    rewrite (pow2_split (e - ez)), (pow2_split (et - ez)) in Hle by (unfold ez; lia).
    pose proof (pow2_pos (ez + 1200) ltac:(unfold ez; lia)). nia. }
  destruct (- (Zpos m * 2 ^ (e - ez)) + Zpos mt * 2 ^ (et - ez)) as [|p|p]; try lia.
  - reflexivity.
  - cbn [binary_normalize]. apply signed_true_nonpos, binary_round_signed.
Qed.

Lemma SFadd_neg_neg m e mt et :
  nonpos (SFadd 53 1024 (S754_finite true m e) (S754_finite true mt et)) = true.
Proof.
  unfold SFadd. cbn [cond_Zopp].
  set (a := Zpos (fst (shl_align m e (Z.min e et)))).
  set (b := Zpos (fst (shl_align mt et (Z.min e et)))).
  assert (Hz : - a + - b < 0) by (unfold a, b; lia).
  destruct (- a + - b) as [|p|p]; try lia.
  cbn [binary_normalize]. apply signed_true_nonpos, binary_round_signed.
Qed.

Lemma SFadd_neg_nonpos m e t :
  nonpos t = true ->
  nonpos (SFadd 53 1024 (S754_finite true m e) t) = true.
Proof.
  destruct t as [s|s| |s mt et]; simpl nonpos; intros H; try discriminate; subst.
  - reflexivity.
  - reflexivity.
  - apply SFadd_neg_neg.
Qed.

Lemma SFleb_nonpos_nonneg x y :
  nonpos x = true -> nonneg y = true -> SFleb x y = true.
Proof.
  destruct x as [sx|sx| |sx mx ex], y as [sy|sy| |sy my ey]; simpl;
    intros Hx Hy; try discriminate; subst;
    try (apply negb_true_iff in Hy; subst); try reflexivity;
    try (destruct sx; reflexivity); try (destruct sy; reflexivity).
Qed.

Lemma bounded_facts m e :
  bounded 53 1024 m e = true ->
  Zpos (digits2_pos m) <= 53 /\ -1074 <= e <= 971 /\
  (e = -1074 \/ Zpos (digits2_pos m) = 53).
Proof.
  unfold bounded, canonical_mantissa. rewrite andb_true_iff, fexp64.
  rewrite Z.eqb_eq, Z.leb_le. lia.
Qed.

Lemma digits2_ge p k : 2 ^ (k - 1) <= Zpos p -> k <= Zpos (digits2_pos p).
Proof.
  intros H. pose proof (digits2_bounds p) as [_ Hu].
  destruct (Z_lt_le_dec (Zpos (digits2_pos p)) k) as [Hk|Hk]; [|lia].
  exfalso. assert (2 ^ Zpos (digits2_pos p) <= 2 ^ (k - 1)) by (apply Z.pow_le_mono_r; lia).
  lia.
Qed.

Lemma digits2_mul_ge a b : 2 ^ 52 <= Zpos b -> 53 <= Zpos (digits2_pos (a * b)).
Proof.
  intros H. apply digits2_ge. rewrite Pos2Z.inj_mul. simpl (53 - 1). nia.
Qed.


(** [step] is at most a sixteenth of the price in magnitude. *)
Lemma step_le_normal m e :
  bounded 53 1024 m e = true -> -1070 <= e ->
  le_bound (step_sf m e) true m (e - 4).
Proof.
  intros Hv He. destruct (bounded_facts m e Hv) as (Hd & Hr & _).
  unfold step_sf, C005, SFmul. cbn [xorb].
  apply BRA_le; try (unfold K; lia).
  - apply digits2_mul_ge. unfold mc. lia.
  - unfold sc, K. rewrite Pos2Z.inj_mul.
    replace (e - 4 + 1200) with (53 + (e + -57 + 1200)) by lia.
    rewrite (pow2_split 53) by lia.
    pose proof (pow2_pos (e + -57 + 1200) ltac:(lia)).
    assert (Zpos mc <= 2 ^ 53) by (unfold mc; lia). nia.
Qed.

Lemma units_small m e :
  bounded 53 1024 m e = true -> e < -1070 -> 0 < units m e < 2 ^ 56.
Proof.
  intros Hv He. destruct (bounded_facts m e Hv) as (Hd & Hr & _).
  unfold units. pose proof (digits2_bounds m) as [_ Hu].
  assert (Zpos m < 2 ^ 53).
  { eapply Z.lt_le_trans; [exact Hu|]. apply Z.pow_le_mono_r; lia. }
  assert (0 < 2 ^ (e + 1074) <= 2 ^ 3).
  { split; [apply pow2_pos; lia | apply Z.pow_le_mono_r; lia]. }
  change (2 ^ 56) with (2 ^ 53 * 2 ^ 3). nia.
Qed.

Lemma b1_val m e :
  bounded 53 1024 m e = true -> e < -1070 ->
  Zpos (b1 m e) = units m e * Zpos mc / 2 ^ 57 + 1 /\
  units m e * Zpos mc < Zpos (b1 m e) * 2 ^ 57 /\
  16 * Zpos (b1 m e) <= units m e + 16 /\
  Zpos (b1 m e) <= 2 ^ 52.
Proof.
  intros Hv He. pose proof (units_small m e Hv He) as Hu.
  set (A := units m e) in *.
  assert (Hq : 0 <= A * Zpos mc / 2 ^ 57) by (apply Z.div_pos; lia).
  assert (Hb : Zpos (b1 m e) = A * Zpos mc / 2 ^ 57 + 1).
  { unfold b1. fold A. rewrite Z2Pos.id; lia. }
  pose proof (Z.div_mod (A * Zpos mc) (2 ^ 57) ltac:(lia)) as Hdm.
  pose proof (Z.mod_pos_bound (A * Zpos mc) (2 ^ 57) ltac:(lia)) as Hrem.
  assert (Hmc : Zpos mc <= 2 ^ 53) by (unfold mc; lia).
  assert (Hq16 : 16 * (A * Zpos mc / 2 ^ 57) <= A).
  { change (2 ^ 57) with (2 ^ 53 * 16) in *.
    set (q := A * Zpos mc / (2 ^ 53 * 16)) in *.
    set (r := (A * Zpos mc) mod (2 ^ 53 * 16)) in *.
    assert (2 ^ 53 * (16 * q) <= 2 ^ 53 * A) by nia. lia. }
  assert (A * Z.pos mc / 2 ^ 57 < 2 ^ 52).
  { apply Z.div_lt_upper_bound; [lia|]. change (2 ^ 57 * 2 ^ 52) with (2 ^ 56 * 2 ^ 53). nia. }
  rewrite Hb. repeat split; lia.
Qed.

Lemma step_le_small m e :
  bounded 53 1024 m e = true -> e < -1070 ->
  le_bound (step_sf m e) true (b1 m e) (-1074).
Proof.
  intros Hv He. destruct (bounded_facts m e Hv) as (Hd & Hr & _).
  destruct (b1_val m e Hv He) as (Hb & Hlt & _ & Hhi).
  unfold step_sf, C005, SFmul. cbn [xorb].
  apply BRA_le; try (unfold K; lia).
  - apply digits2_mul_ge. unfold mc. lia.
  - apply digits2_le. eapply Z.le_lt_trans; [exact Hhi|]. lia.
  - unfold sc, K. rewrite Pos2Z.inj_mul.
    unfold units in Hlt.
    replace (e + -57 + 1200) with ((e + 1074) + 69) by lia.
    rewrite (pow2_split (e + 1074)) by lia.
    change (2 ^ (-1074 + 1200)) with (2 ^ 57 * 2 ^ 69).
    assert (0 < 2 ^ 69) by lia. nia.
Qed.

Lemma mulk_le si mk ek k ms es mb eb :
  2 ^ 52 <= Zpos mk -> -52 <= ek <= 0 -> Zpos mk = k * 2 ^ (- ek) -> 0 < k <= 8 ->
  -1074 <= es -> Zpos (digits2_pos mb) <= 53 -> -1074 <= eb <= 968 ->
  sc ms es <= sc mb eb ->
  le_bound (SFmul 53 1024 (S754_finite si mk ek) (S754_finite true ms es))
           (xorb si true) mb (eb + 3).
Proof.
  intros Hmk Hek Hk Hk8 Hes Hdb Heb Hle.
  unfold SFmul. apply BRA_le; try (unfold K; lia).
  - rewrite Pos.mul_comm. apply digits2_mul_ge. exact Hmk.
  - unfold sc, K in *. rewrite Pos2Z.inj_mul, Hk.
    replace (es + 1200) with (- ek + (ek + es + 1200)) in Hle by lia.
    rewrite (pow2_split (- ek)) in Hle by lia.
    replace (eb + 3 + 1200) with (3 + (eb + 1200)) by lia.
    rewrite (pow2_split 3) by lia.
    pose proof (pow2_pos (- ek) ltac:(lia)).
    pose proof (pow2_pos (ek + es + 1200) ltac:(lia)).
    pose proof (pow2_pos (eb + 1200) ltac:(lia)).
    change (2 ^ 3) with 8.
    set (a := 2 ^ (- ek)) in *. set (b := 2 ^ (ek + es + 1200)) in *.
    set (c := 2 ^ (eb + 1200)) in *.
    assert (k * (Zpos ms * (a * b)) <= 8 * (Zpos mb * c)) by nia.
    nia.
Qed.

Lemma step_shape m e :
  bounded 53 1024 m e = true ->
  step_sf m e = S754_zero true \/
  exists ms es, step_sf m e = S754_finite true ms es /\ -1074 <= es.
Proof.
  intros Hv.
  assert (H : exists mb eb, le_bound (step_sf m e) true mb eb).
  { destruct (Z_le_gt_dec (-1070) e).
    - eexists _, _. apply step_le_normal; auto.
    - eexists _, _. apply step_le_small; auto; lia. }
  destruct H as (mb & eb & [H|(ms & es & H & He & _)]); [left|right]; eauto.
  exists ms, es. split; auto; lia.
Qed.

Lemma cand_zero m e :
  bounded 53 1024 m e = true -> nonpos (cand_sf (S754_zero false) m e) = true.
Proof.
  intros Hv. unfold cand_sf.
  destruct (step_shape m e Hv) as [H|(ms & es & H & _)]; rewrite H; reflexivity.
Qed.

Lemma cand_pos mk ek m e :
  bounded 53 1024 m e = true ->
  nonpos (cand_sf (S754_finite false mk ek) m e) = true.
Proof.
  intros Hv. unfold cand_sf.
  destruct (step_shape m e Hv) as [H|(ms & es & H & _)]; rewrite H.
  - reflexivity.
  - apply SFadd_neg_nonpos. apply signed_true_nonpos.
    unfold SFmul. cbn [xorb]. apply BRA_signed.
Qed.

Lemma sc_mono m e e' : - K <= e <= e' -> sc m e <= sc m e'.
Proof.
  intros H. unfold sc, K in *. apply Z.mul_le_mono_nonneg_l; [lia|].
  apply Z.pow_le_mono_r; lia.
Qed.

(** A negative offset of magnitude [k <= 8]: the product [k * step] stays
    below the magnitude of the price, so the sum is not positive. The
    fifteen smallest magnitudes are left to computation. *)
Lemma cand_neg mk ek k :
  2 ^ 52 <= Zpos mk -> -52 <= ek <= 0 -> Zpos mk = k * 2 ^ (- ek) -> 0 < k <= 8 ->
  (forall m', Zpos m' < 16 ->
     nonpos (cand_sf (S754_finite true mk ek) m' (-1074)) = true) ->
  forall m e, bounded 53 1024 m e = true ->
  nonpos (cand_sf (S754_finite true mk ek) m e) = true.
Proof.
  intros Hmk Hek Hk Hk8 Hsmall m e Hv.
  destruct (bounded_facts m e Hv) as (Hd & Hr & Hc).
  assert (Hfin : forall mb eb,
             le_bound (step_sf m e) true mb eb ->
             Zpos (digits2_pos mb) <= 53 -> -1074 <= eb <= 968 ->
             sc mb (eb + 3) <= sc m e ->
             nonpos (cand_sf (S754_finite true mk ek) m e) = true).
  { intros mb eb Hle Hdb Heb Hb. unfold cand_sf.
    destruct Hle as [H|(ms & es & H & Hes & Hds & Hs)]; rewrite H.
    - reflexivity.
    - pose proof (mulk_le true mk ek k ms es mb eb Hmk Hek Hk Hk8 ltac:(lia) Hdb Heb Hs) as HT.
      cbn [xorb] in HT.
      destruct HT as [HT|(mt & et & HT & Het & _ & Hst)]; rewrite HT.
      + reflexivity.
      + apply SFadd_neg_pos; unfold K in *; lia. }
  destruct (Z_le_gt_dec (-1070) e) as [He|He].
  - apply (Hfin m (e - 4)); try lia.
    + apply step_le_normal; auto.
    + replace (e - 4 + 3) with (e - 1) by lia. apply sc_mono. unfold K. lia.
  - destruct (Z_lt_le_dec (units m e) 16) as [Hu|Hu].
    + assert (e = -1074).
      { destruct Hc as [Hc|Hc]; auto. exfalso.
        pose proof (digits2_bounds m) as [Hl _]. rewrite Hc in Hl.
        unfold units in Hu. pose proof (pow2_pos (e + 1074) ltac:(lia)).
        simpl (53 - 1) in Hl. nia. }
      subst e. apply Hsmall. unfold units in Hu. simpl in Hu. lia.
    + destruct (b1_val m e Hv ltac:(lia)) as (Hb & Hlt & H16 & Hhi).
      apply (Hfin (b1 m e) (-1074)); try lia.
      * apply step_le_small; auto; lia.
      * apply digits2_le. eapply Z.le_lt_trans; [exact Hhi|]. lia.
      * unfold sc, K, units in *. 
        replace (e + 1200) with ((e + 1074) + 126) by lia.
        rewrite (pow2_split (e + 1074)) by lia.
        change (2 ^ (-1074 + 3 + 1200)) with (8 * 2 ^ 126).
        assert (0 < 2 ^ 126) by lia.
        set (A := Zpos m * 2 ^ (e + 1074)) in *. nia.
Qed.

Lemma small_pos_cases (P : positive -> bool) :
  forallb P [1;2;3;4;5;6;7;8;9;10;11;12;13;14;15]%positive = true ->
  forall m, Zpos m < 16 -> P m = true.
Proof.
  intros H m Hm. rewrite forallb_forall in H. apply H.
  assert (Hc : (m = 1 \/ m = 2 \/ m = 3 \/ m = 4 \/ m = 5 \/ m = 6 \/ m = 7 \/ m = 8 \/
           m = 9 \/ m = 10 \/ m = 11 \/ m = 12 \/ m = 13 \/ m = 14 \/ m = 15)%positive) by lia.
  repeat (destruct Hc as [Hc|Hc]; [subst; simpl; tauto|]). subst; simpl; tauto.
Qed.

End Binary64Facts.

(** ** The elasticity curve *)

Module CurveFacts.

Import Curve CurveTactics Binary64 Binary64Facts.

(** ** Comparisons of numbers *)

Lemma SFcompare_swap a b :
  SFcompare b a = match SFcompare a b with
                  | Some c => Some (CompOpp c)
                  | None => None
                  end.
Proof.
  destruct a as [sa|sa| |sa ma ea], b as [sb|sb| |sb mb eb]; simpl;
    try reflexivity;
    try (destruct sa; reflexivity); try (destruct sb; reflexivity);
    try (destruct sa, sb; reflexivity).
  destruct sa, sb; try reflexivity;
    rewrite (Z.compare_antisym ea eb); destruct (ea ?= eb)%Z; simpl; try reflexivity;
    rewrite (Pos.compare_cont_antisym ma mb Eq); simpl;
    destruct (Pos.compare_cont Eq ma mb); reflexivity.
Qed.

Lemma SFcompare_none a b :
  SFcompare a b = None <-> a = S754_nan \/ b = S754_nan.
Proof.
  destruct a as [sa|sa| |sa ma ea], b as [sb|sb| |sb mb eb]; simpl;
    split; intros H; try discriminate; auto;
    try (destruct H; discriminate);
    try (destruct sa; discriminate); try (destruct sb; discriminate).
Qed.

Lemma SFcompare_refl a : a <> S754_nan -> SFcompare a a = Some Eq.
Proof.
  destruct a as [sa|sa| |sa ma ea]; simpl; intros H; try reflexivity.
  - destruct sa; reflexivity.
  - contradiction.
  - rewrite Z.compare_refl, Pos.compare_cont_refl. destruct sa; reflexivity.
Qed.

Lemma is_nan_spec x : is_nan x = true <-> Prim2SF x = S754_nan.
Proof.
  unfold is_nan. rewrite eqb_spec. unfold SFeqb.
  split; intros H.
  - destruct (Prim2SF x) eqn:E; auto;
      rewrite SFcompare_refl in H by discriminate; discriminate.
  - rewrite H. reflexivity.
Qed.

Lemma leb_false_iff x y :
  (x <=? y) = false <->
  (y <? x) = true \/ is_nan x = true \/ is_nan y = true.
Proof.
  rewrite leb_spec, ltb_spec, !is_nan_spec. unfold SFleb, SFltb.
  rewrite (SFcompare_swap (Prim2SF x) (Prim2SF y)).
  pose proof (SFcompare_none (Prim2SF x) (Prim2SF y)) as Hn.
  destruct (SFcompare (Prim2SF x) (Prim2SF y)) as [[| |]|]; simpl;
    split; intros H; try discriminate; auto; try tauto;
    destruct H as [H|H]; try discriminate;
    apply Hn in H; discriminate.
Qed.

(** Two numbers that the bitwise comparison tells apart are different. *)
Lemma float_neq a b : PrimFloat.Leibniz.eqb a b = false -> a <> b.
Proof.
  intros Hab E. apply FloatAxioms.Leibniz.eqb_spec in E. congruence.
Qed.

Lemma Prim2SF_zero : Prim2SF 0 = S754_zero false.
Proof. vm_compute. reflexivity. Qed.

Lemma nonneg_of_leb cost : (0 <=? cost) = true -> nonneg (Prim2SF cost) = true.
Proof.
  rewrite leb_spec, Prim2SF_zero. unfold SFleb.
  destruct (Prim2SF cost) as [s|s| |s m e]; simpl; try reflexivity; try discriminate;
    destruct s; simpl; auto; discriminate.
Qed.

Lemma is_infinity_spec x s : Prim2SF x = S754_infinity s -> is_infinity x = true.
Proof.
  intros H. unfold is_infinity. rewrite eqb_spec, abs_spec, H.
  vm_compute. reflexivity.
Qed.

Lemma finite_nonpos_cases x :
  (x <=? 0) = true -> is_finite x = true ->
  (exists s, Prim2SF x = S754_zero s) \/ (exists m e, Prim2SF x = S754_finite true m e).
Proof.
  rewrite leb_spec, Prim2SF_zero. unfold is_finite. intros Hle Hfin.
  apply negb_true_iff, orb_false_iff in Hfin. destruct Hfin as [_ Hinf].
  destruct (Prim2SF x) as [s|s| |s m e] eqn:E.
  - left; eauto.
  - rewrite (is_infinity_spec x s E) in Hinf. discriminate.
  - discriminate.
  - right. destruct s; [eauto | discriminate].
Qed.

(** ** The loop *)

Lemma for_loop_fold cp cost fuel : forall i st,
  for_loop fuel i cp cost st = fold_left (body cp cost) (visited fuel i) st.
Proof.
  induction fuel as [|fuel IH]; intros i st; simpl.
  - reflexivity.
  - destruct (i <=? range)%Z; [|reflexivity]. simpl.
    unfold body at 2, emitted.
    destruct (candidate cp i <=? cost); simpl; apply IH.
Qed.

Lemma fold_body_points cp cost l : forall st,
  points (fold_left (body cp cost) l st)
  = points st ++ map (point cp) (filter (emitted cp cost) l).
Proof.
  induction l as [|i l IH]; intros st; simpl.
  - now rewrite app_nil_r.
  - rewrite IH. unfold body. destruct (emitted cp cost i); simpl.
    + now rewrite <- app_assoc.
    + reflexivity.
Qed.

Lemma fold_body_divisors cp cost l : forall st,
  divisors (fold_left (body cp cost) l st)
  = divisors st ++ map (fun _ => cp) (filter (emitted cp cost) l).
Proof.
  induction l as [|i l IH]; intros st; simpl.
  - now rewrite app_nil_r.
  - rewrite IH. unfold body. destruct (emitted cp cost i); simpl.
    + now rewrite <- app_assoc.
    + reflexivity.
Qed.

(** Eleven iterations are all the loop makes: further fuel is not used. *)
Lemma visited_offsets k : visited (iterations + k) (- range) = offsets.
Proof.
  change (iterations + k)%nat with (S (S (S (S (S (S (S (S (S (S (S k))))))))))).
  cbn. destruct k; reflexivity.
Qed.

Lemma for_loop_fuel cp cost st k :
  for_loop (iterations + k) (- range) cp cost st
  = for_loop iterations (- range) cp cost st.
Proof.
  rewrite !for_loop_fold. rewrite visited_offsets.
  rewrite <- (visited_offsets 0). rewrite Nat.add_0_r. reflexivity.
Qed.

Lemma run_fold cp cost :
  run cp cost = fold_left (body cp cost) offsets {| points := []; divisors := [] |}.
Proof.
  unfold run. rewrite for_loop_fold. rewrite <- (visited_offsets 0).
  rewrite Nat.add_0_r. reflexivity.
Qed.

Lemma calculateConversion_filter cp cost :
  calculateConversion cp cost = map (point cp) (filter (emitted cp cost) offsets).
Proof.
  unfold calculateConversion. rewrite run_fold, fold_body_points. reflexivity.
Qed.

Lemma divisors_filter cp cost :
  divisors (run cp cost) = map (fun _ => cp) (filter (emitted cp cost) offsets).
Proof. rewrite run_fold, fold_body_divisors. reflexivity. Qed.

Lemma in_offsets i : In i offsets <-> (-5 <= i <= 5)%Z.
Proof.
  unfold offsets. simpl. split; intros H.
  - intuition lia.
  - assert (Hc : (i = -5 \/ i = -4 \/ i = -3 \/ i = -2 \/ i = -1 \/ i = 0 \/
               i = 1 \/ i = 2 \/ i = 3 \/ i = 4 \/ i = 5)%Z) by lia.
    intuition.
Qed.

(** C4. [generateCurve(100, 50)] returns eleven points, in ascending order
    of offset; the point of offset 0 is (100, 100, 10000), that of offset 5
    is (125, 63, 7875), and that of offset -5 has price 75. *)
Theorem curve_100_50 :
  calculateConversion 100 50 = map (point 100) offsets /\
  List.length (calculateConversion 100 50) = 11%nat /\
  point 100 0 = {| price := 100; estimatedSales := 100; revenue := 10000 |} /\
  point 100 5 = {| price := 125; estimatedSales := 63; revenue := 7875 |} /\
  price (point 100 (-5)) = 75.
Proof. repeat split; vm_compute; reflexivity. Qed.

(** C5, as the claim states it, fails when a comparison involves [NaN]:
    with [cost = NaN] (what [parseFloat] gives for an empty cost field) no
    candidate price is greater than the cost, and yet every offset has its
    point, [p <= cost] being false for each; likewise with
    [currentPrice = NaN] and the cost 50. *)
Lemma nan_cost_emits_all :
  emitted 100 nan 0 = true /\ (nan <? candidate 100 0) = false /\
  List.length (calculateConversion 100 nan) = 11%nat /\
  forallb (fun i => negb (nan <? candidate 100 i)) offsets = true /\
  emitted nan 50 0 = true /\ (50 <? candidate nan 0) = false /\
  List.length (calculateConversion nan 50) = 11%nat.
Proof. repeat split; vm_compute; reflexivity. Qed.

(** C5, amended. A point is pushed for exactly those offsets of -5..5, in
    order, for which the test [p <= cost] is false: those whose candidate
    price exceeds the cost, and those where the candidate or the cost is
    [NaN]. So there are never more than eleven points; and
    [generateCurve(50, 50)] has the five points of offsets 1..5, each of
    price above 50. *)
Theorem calculateConversion_emits cp cost :
  calculateConversion cp cost = map (point cp) (filter (emitted cp cost) offsets) /\
  (forall i, emitted cp cost i = true <->
             (cost <? candidate cp i) = true \/
             is_nan (candidate cp i) = true \/ is_nan cost = true) /\
  (List.length (calculateConversion cp cost) <= 11)%nat /\
  calculateConversion 50 50 = map (point 50) [1; 2; 3; 4; 5]%Z /\
  forallb (fun pt => 50 <? price pt) (calculateConversion 50 50) = true.
Proof.
  split; [apply calculateConversion_filter|].
  split; [|split; [|split; vm_compute; reflexivity]].
  - intros i. unfold emitted. rewrite negb_true_iff. apply leb_false_iff.
  - rewrite calculateConversion_filter, length_map.
    change 11%nat with (List.length offsets). apply filter_length_le.
Qed.

Lemma Prim2SF_005 : Prim2SF 0.05 = C005.
Proof. vm_compute. reflexivity. Qed.

Lemma candidate_spec cp i :
  Prim2SF (candidate cp i) =
  SFadd 53 1024 (Prim2SF cp)
    (SFmul 53 1024 (Prim2SF (Z2float i)) (SFmul 53 1024 (Prim2SF cp) C005)).
Proof.
  unfold candidate, step. rewrite add_spec, mul_spec, mul_spec, Prim2SF_005.
  reflexivity.
Qed.


Lemma candidate_nonpos_finite cp m e i :
  Prim2SF cp = S754_finite true m e -> In i offsets ->
  nonpos (Prim2SF (candidate cp i)) = true.
Proof.
  intros Hcp Hi. pose proof (Prim2SF_valid cp) as Hv. rewrite Hcp in Hv.
  cbn [valid_binary] in Hv.
  rewrite candidate_spec, Hcp. fold (step_sf m e).
  offset_cases Hi; offset_value.
  1-5: match goal with
       | |- nonpos (SFadd _ _ _ (SFmul _ _ (S754_finite true ?mk ?ek) _)) = true =>
           apply (cand_neg mk ek (Zpos mk / 2 ^ (- ek)));
           [ vm_compute; discriminate
           | vm_compute; split; discriminate
           | vm_compute; reflexivity
           | vm_compute; split; [reflexivity | discriminate]
           | apply small_pos_cases; vm_compute; reflexivity
           | exact Hv ]
       end.
  - apply cand_zero; exact Hv.
  - apply cand_pos; exact Hv.
  - apply cand_pos; exact Hv.
  - apply cand_pos; exact Hv.
  - apply cand_pos; exact Hv.
  - apply cand_pos; exact Hv.
Qed.

Lemma candidate_nonpos_zero cp s i :
  Prim2SF cp = S754_zero s -> In i offsets ->
  nonpos (Prim2SF (candidate cp i)) = true.
Proof.
  intros Hcp Hi. rewrite candidate_spec, Hcp.
  offset_cases Hi; destruct s; vm_compute; reflexivity.
Qed.

Lemma candidate_skipped cp cost i :
  (cp <=? 0) = true -> is_finite cp = true -> (0 <=? cost) = true ->
  In i offsets -> emitted cp cost i = false.
Proof.
  intros Hcp Hfin Hcost Hi. unfold emitted. apply negb_false_iff.
  rewrite leb_spec. apply SFleb_nonpos_nonneg.
  - destruct (finite_nonpos_cases cp Hcp Hfin) as [[s Hs]|(m & e & Hs)].
    + eapply candidate_nonpos_zero; eauto.
    + eapply candidate_nonpos_finite; eauto.
  - apply nonneg_of_leb. exact Hcost.
Qed.

Lemma filter_none {A} (f : A -> bool) l :
  (forall x, In x l -> f x = false) -> filter f l = [].
Proof.
  induction l as [|a l IH]; intros H; simpl; auto.
  rewrite (H a (or_introl eq_refl)). apply IH. intros x Hx. apply H. now right.
Qed.

(** C6, as the claim states it, fails at [currentPrice = -Infinity]:
    [step] is [-Infinity], the candidate of every offset [i <= 0] is [NaN],
    which is not [<= cost], so six points are pushed and six divisions
    made. *)
Lemma neg_infinity_price_emits :
  (neg_infinity <=? 0) = true /\ (0 <=? 0) = true /\
  List.length (calculateConversion neg_infinity 0) = 6%nat /\
  divisors (run neg_infinity 0)
  = [neg_infinity; neg_infinity; neg_infinity; neg_infinity; neg_infinity; neg_infinity].
Proof. repeat split; vm_compute; reflexivity. Qed.

(** C6, amended. For every finite [currentPrice <= 0] and every
    [cost >= 0] the loop pushes no point and executes no division: each
    candidate price is at most zero, hence skipped. *)
Theorem nonpositive_price_empty cp cost :
  (cp <=? 0) = true -> is_finite cp = true -> (0 <=? cost) = true ->
  run cp cost = {| points := []; divisors := [] |} /\
  calculateConversion cp cost = [].
Proof.
  intros Hcp Hfin Hcost.
  assert (Hf : filter (emitted cp cost) offsets = []).
  { apply filter_none. intros i Hi. now apply candidate_skipped. }
  pose proof (calculateConversion_filter cp cost) as Hp.
  pose proof (divisors_filter cp cost) as Hd.
  rewrite Hf in Hp, Hd. simpl in Hp, Hd. split; [|exact Hp].
  unfold calculateConversion in Hp. destruct (run cp cost) as [ps ds].
  simpl in Hp, Hd. now subst.
Qed.

Lemma nonpositive_price_empty_witness :
  ((-3) <=? 0) = true /\ is_finite (-3) = true /\ (0 <=? 19.99) = true /\
  run (-3) 19.99 = {| points := []; divisors := [] |} /\
  calculateConversion (-3) 19.99 = [].
Proof.
  split; [reflexivity|]. split; [reflexivity|]. split; [reflexivity|].
  apply (nonpositive_price_empty (-3) 19.99); reflexivity.
Defined.

(** C9, as the claim states it, fails: in [generateCurve(10.01, 0)] the
    point of offset 2 has price 11.01 and 85 sales, and revenue 935.93,
    which is the unrounded candidate 11.011 times 85; the price field
    times the sales is 935.85. *)
Lemma revenue_not_from_rounded_price :
  let pt := nth 7 (calculateConversion 10.01 0) (point 0 0) in
  pt = {| price := 11.01; estimatedSales := 85; revenue := 935.93 |} /\
  toFixed2 (price pt * estimatedSales pt) = 935.85 /\
  revenue pt <> toFixed2 (price pt * estimatedSales pt) /\
  (0.07 <? revenue pt - price pt * estimatedSales pt) = true.
Proof.
  cbv zeta. split; [vm_compute; reflexivity|].
  split; [vm_compute; reflexivity|].
  split; [apply float_neq|]; vm_compute; reflexivity.
Qed.

(** C9, amended. Every point returned comes from an offset [i] of -5..5;
    its price is the candidate price [p] of that offset rounded to two
    decimals, and its revenue is [p * estimatedSales] rounded to two
    decimals, computed from the unrounded [p]. *)
Theorem revenue_from_candidate cp cost pt :
  In pt (calculateConversion cp cost) ->
  exists i, In i offsets /\ emitted cp cost i = true /\
            price pt = toFixed2 (candidate cp i) /\
            revenue pt = toFixed2 (candidate cp i * estimatedSales pt).
Proof.
  rewrite calculateConversion_filter, in_map_iff.
  intros (i & Hpt & Hi). apply filter_In in Hi. destruct Hi as [Hi He].
  exists i. subst pt. repeat split; auto.
Qed.

Lemma revenue_from_candidate_witness :
  In {| price := 125; estimatedSales := 63; revenue := 7875 |}
     (calculateConversion 100 50) /\
  exists i, In i offsets /\ emitted 100 50 i = true /\
            125 = toFixed2 (candidate 100 i) /\
            7875 = toFixed2 (candidate 100 i * 63).
Proof.
  assert (H : In {| price := 125; estimatedSales := 63; revenue := 7875 |}
                 (calculateConversion 100 50)).
  { vm_compute. repeat (try (left; reflexivity); right). }
  split; [exact H|].
  exact (revenue_from_candidate 100 50 _ H).
Defined.

End CurveFacts.

(** ** The normalizer *)

Module PricingFacts.

Import Pricing Binary64 CurveFacts.

#[local] Open Scope string_scope.
#[local] Open Scope float_scope.

Section Facts.
Context `{Runtime}.

Lemma get_total data k v :
  get data k = Some v -> forall k', get data k' = Some (prop data k').
Proof.
  unfold prop. destruct data; simpl; intros E k'; try discriminate; reflexivity.
Qed.

Lemma normalize_unfold data input n :
  normalize data input n =
  match get data "competitors" with
  | None => None
  | Some dc =>
      match array_map mapCompetitor (or_else dc (VArray [])) n with
      | None => None
      | Some (comps, n') =>
          match ToNumber (prop data "recommendedPrice") with
          | None => None
          | Some r => Some (success_result data input comps r, n')
          end
      end
  end.
Proof.
  unfold normalize, bind.
  destruct (get data "competitors") as [dc|] eqn:E; simpl; [|reflexivity].
  destruct (array_map mapCompetitor (or_else dc (VArray [])) n) as [[comps n']|];
    [|reflexivity].
  rewrite !(get_total data _ _ E). simpl.
  destruct (ToNumber (prop data "recommendedPrice")); reflexivity.
Qed.

Lemma drawStockStatus_spec n :
  drawStockStatus n =
  Some (chooseStock gtb 0.8 0.9 (random_draws n) (random_draws (S n)),
        if gtb (random_draws n) 0.8 then S n else S (S n)).
Proof.
  unfold drawStockStatus, bind, Math_random, chooseStock, ret.
  destruct (gtb (random_draws n) 0.8); reflexivity.
Qed.

Lemma historySample_spec c_price n :
  historySample c_price n =
  match PrimitiveToNumber c_price with
  | Some x => Some (toFixed2 (x + (random_draws n - 0.5) * (x * 0.1)), S n)
  | None => None
  end.
Proof.
  unfold historySample, bind, Math_random, lift, ret, throw.
  destruct (PrimitiveToNumber c_price); reflexivity.
Qed.

Lemma replicateM_history c_price k : forall n,
  replicateM (S k) (historySample c_price) n = None <->
  PrimitiveToNumber c_price = None.
Proof.
  induction k as [|k IH]; intros n.
  - simpl. unfold bind. rewrite historySample_spec.
    destruct (PrimitiveToNumber c_price); simpl; split; intros; try discriminate; auto.
  - change (replicateM (S (S k)) (historySample c_price) n)
      with (bind (historySample c_price)
              (fun a => bind (replicateM (S k) (historySample c_price))
                          (fun l => ret (a :: l))) n).
    unfold bind at 1. rewrite historySample_spec.
    destruct (PrimitiveToNumber c_price) as [x|] eqn:E; [|tauto].
    unfold bind. specialize (IH (S n)).
    destruct (replicateM (S k) (historySample c_price) (S n)) as [[l n']|] eqn:Er.
    + split; intros; discriminate.
    + split; intros; auto. apply IH. reflexivity.
Qed.

Lemma mapCompetitor_none c n :
  mapCompetitor c n = None <-> bad_competitor c = true.
Proof.
  unfold mapCompetitor, bad_competitor, bind.
  destruct (get c "name") as [c_name|] eqn:En.
  - rewrite (get_total c _ _ En "price"), (get_total c _ _ En "trend").
    unfold lift, ret. cbv beta iota. rewrite drawStockStatus_spec.
    set (n1 := if gtb (random_draws n) 0.8 then S n else S (S n)).
    pose proof (replicateM_history (prop c "price") 5 n1) as Hh.
    destruct (replicateM 6 (historySample (prop c "price")) n1) as [[l n']|] eqn:Er.
    + destruct (PrimitiveToNumber (prop c "price")) eqn:Ep.
      * split; intros; discriminate.
      * destruct Hh as [_ Hh]. specialize (Hh eq_refl). discriminate.
    + destruct Hh as [Hh _]. rewrite (Hh eq_refl). tauto.
  - simpl. destruct c; simpl in *; try discriminate; tauto.
Qed.

Lemma mapM_none {A B} (f : A -> M B) (bad : A -> bool) :
  (forall a n, f a n = None <-> bad a = true) ->
  forall l n, mapM f l n = None <-> existsb bad l = true.
Proof.
  intros Hf. induction l as [|a l IH]; intros n; simpl.
  - unfold ret. split; intros; discriminate.
  - unfold bind. specialize (Hf a n).
    destruct (f a n) as [[b n1]|].
    + destruct (bad a); [destruct Hf as [_ Hf]; specialize (Hf eq_refl); discriminate|].
      simpl. specialize (IH n1).
      destruct (mapM f l n1) as [[bs n2]|].
      * unfold ret. rewrite <- IH. split; intros; discriminate.
      * rewrite <- IH. tauto.
    + destruct Hf as [Hf _]. rewrite (Hf eq_refl). simpl. tauto.
Qed.

Lemma normalize_none data input n :
  normalize data input n = None <-> rejects data = true.
Proof.
  rewrite normalize_unfold. unfold rejects.
  destruct (get data "competitors") as [dc|] eqn:E; [|tauto].
  rewrite (get_total data _ _ E "recommendedPrice").
  unfold array_map.
  destruct (or_else dc (VArray [])) as [| | | | |items|] eqn:Eo;
    try (simpl; tauto).
  pose proof (mapM_none mapCompetitor bad_competitor mapCompetitor_none items n) as Hm.
  destruct (mapM mapCompetitor items n) as [[comps n']|].
  - destruct (existsb bad_competitor items);
      [destruct Hm as [_ Hm]; specialize (Hm eq_refl); discriminate|].
    simpl. destruct (ToNumber (prop data "recommendedPrice")); split; intros; auto; discriminate.
  - destruct Hm as [Hm _]. rewrite (Hm eq_refl). simpl. tauto.
Qed.

Lemma attempt_some o input r :
  attempt o input = Some r ->
  exists data comps x n',
    o = Payload data /\
    ToNumber (prop data "recommendedPrice") = Some x /\
    normalize data input 0%nat = Some (r, n') /\
    r = success_result data input comps x.
Proof.
  destruct o as [|data]; simpl; [discriminate|].
  destruct (normalize data input 0%nat) as [[r' n']|] eqn:E; [|discriminate].
  intros Hr. injection Hr as <-.
  pose proof E as E'. rewrite normalize_unfold in E'.
  destruct (get data "competitors") as [dc|]; [|discriminate].
  destruct (array_map mapCompetitor (or_else dc (VArray [])) 0%nat) as [[comps n1]|];
    [|discriminate].
  destruct (ToNumber (prop data "recommendedPrice")) as [x|] eqn:Ex; [|discriminate].
  injection E' as <- <-. exists data, comps, x, n1. auto.
Qed.

(** C1, amended. On the success path [profitMargin] is
    [(recommendedPrice - cost) / recommendedPrice * 100], computed from the
    result's [recommendedPrice] (read as a number) and the input cost; on
    the fallback path it is the input's [desiredMargin], taken as it is. *)
Theorem profitMargin_by_path o input :
  let r := analyzePrice o input in
  (attempt o input = Some r /\
   margin_of (recommendedPrice r) (cost input) = Some (profitMargin r)) \/
  (attempt o input = None /\ r = fallback input /\
   profitMargin r = desiredMargin input).
Proof.
  unfold analyzePrice. destruct (attempt o input) as [r|] eqn:E; cbn zeta.
  - left. split; [reflexivity|].
    destruct (attempt_some o input r E) as (data & comps & x & n' & _ & Hx & _ & ->).
    unfold margin_of. cbn [recommendedPrice success_result profitMargin].
    rewrite Hx. reflexivity.
  - right. repeat split.
Qed.

(** C2, amended. Normalization fails, so that the fallback is taken,
    exactly on the payloads that [rejects] describes: [null]; a truthy
    [competitors] that is not an array; a competitor entry that is [null]
    or whose price is a string, an array or an object; a [recommendedPrice]
    whose conversion to a number throws. An object with a falsy or absent
    [competitors] and a [recommendedPrice] that is absent or primitive is
    accepted whatever its other fields are, and the success-path result
    carries the payload's properties as they are, absent ones as
    [undefined]. *)
Theorem normalize_rejects data input :
  (forall n, normalize data input n = None <-> rejects data = true) /\
  (attempt (Payload data) input = None <-> rejects data = true) /\
  (forall props,
     truthy (lookup "competitors" props) = false ->
     is_reference (lookup "recommendedPrice" props) = false ->
     rejects (VObject props) = false) /\
  (forall r, attempt (Payload data) input = Some r ->
     recommendedPrice r = prop data "recommendedPrice" /\
     min (priceRange r) = prop data "minPrice" /\
     premium (priceRange r) = prop data "premiumPrice" /\
     explanation r = prop data "explanation" /\
     evidence r = prop data "evidence").
Proof.
  split; [intros n; apply normalize_none|].
  split; [|split].
  - simpl. pose proof (normalize_none data input 0%nat) as Hn.
    destruct (normalize data input 0%nat) as [[r n']|].
    + rewrite <- Hn. split; intros; discriminate.
    + rewrite <- Hn. tauto.
  - intros props Hc Hr. unfold rejects. cbn [get]. unfold or_else. rewrite Hc.
    cbn [existsb orb].
    destruct (lookup "recommendedPrice" props); simpl in *; try reflexivity; discriminate.
  - intros r Hr.
    destruct (attempt_some _ input r Hr) as (data' & comps & x & n' & Hd & _ & _ & ->).
    injection Hd as <-. repeat split.
Qed.

(** C3, amended. When the call, the parse or the normalization throws,
    the fallback result is returned, for every input: [recommendedPrice] is
    [basePrice = cost * (1 + desiredMargin / 100)] rounded by
    [Math.round(basePrice * 100) / 100]; the range has
    [min = suggested = basePrice], not rounded, and
    [premium = basePrice * 1.2]; the score is 50, the strategy Cost-Plus,
    the evidence one fixed note, the seasonality neutral with factor 1, and
    there is no competitor. For cost 100 and margin 20 the price is 120. *)
Theorem fallback_result o input :
  attempt o input = None ->
  let basePrice := cost input * (1 + desiredMargin input / 100) in
  analyzePrice o input =
  {| recommendedPrice := VNumber (Math_round (basePrice * 100) / 100);
     priceRange := {| min := VNumber basePrice;
                      suggested := VNumber basePrice;
                      premium := VNumber (basePrice * 1.2) |};
     profitMargin := desiredMargin input;
     confidenceScore := VNumber 50;
     explanation :=
       VString "Fallback pricing calculation due to service interruption.";
     evidence := VArray [VString "Cost basis calculation"];
     strategy := VString "Cost-Plus";
     seasonality := {| signal := VString "Neutral";
                       adjustmentFactor := VNumber 1;
                       seasonality_explanation := VString "No data" |};
     competitors := [] |} /\
  recommendedPrice (analyzePrice Failed (example_input 100 20)) = VNumber 120 /\
  confidenceScore (analyzePrice Failed (example_input 100 20)) = VNumber 50 /\
  strategy (analyzePrice Failed (example_input 100 20)) = VString "Cost-Plus" /\
  competitors (analyzePrice Failed (example_input 100 20)) = [].
Proof.
  intros Hf. unfold analyzePrice. rewrite Hf. cbn zeta.
  split; [reflexivity|]. repeat split; vm_compute; reflexivity.
Qed.

Lemma is_zero_spec z : is_zero z = true -> exists s, Prim2SF z = S754_zero s.
Proof.
  unfold is_zero. rewrite FloatAxioms.eqb_spec. change (Prim2SF zero) with (Prim2SF 0).
  rewrite Prim2SF_zero. unfold SFeqb.
  destruct (Prim2SF z) as [s|s| |s m e]; simpl; intros Hz; try discriminate; eauto;
    destruct s; discriminate.
Qed.

Lemma not_finite_spec x : not_finite (Prim2SF x) = true -> is_finite x = false.
Proof.
  unfold is_finite. intros Hx. apply negb_false_iff, orb_true_iff.
  destruct (Prim2SF x) as [s|s| |s m e] eqn:E; try discriminate.
  - right. eapply is_infinity_spec; eauto.
  - left. apply is_nan_spec. exact E.
Qed.

Lemma margin_at_zero z c :
  is_zero z = true -> is_finite (((z - c) / z) * 100) = false.
Proof.
  intros Hz. destruct (is_zero_spec z Hz) as [s Hs].
  apply not_finite_spec. rewrite mul_spec, div_spec, sub_spec, Hs.
  replace (Prim2SF 100) with (S754_finite false 7036874417766400 (-46))
    by (vm_compute; reflexivity).
  destruct (Prim2SF c) as [s'|s'| |s' m' e']; destruct s; try destruct s'; reflexivity.
Qed.

(** C8, amended. The division is not guarded: when the payload's
    [recommendedPrice] is the number zero and normalization succeeds, the
    result has that [recommendedPrice], and its [profitMargin],
    [(0 - cost) / 0 * 100], is not finite. *)
Theorem zero_price_margin_not_finite data input r z :
  attempt (Payload data) input = Some r ->
  get data "recommendedPrice" = Some (VNumber z) ->
  is_zero z = true ->
  recommendedPrice r = VNumber z /\
  profitMargin r = ((z - cost input) / z) * 100 /\
  is_finite (profitMargin r) = false.
Proof.
  intros Hr Hz Hzero.
  destruct (attempt_some _ input r Hr) as (data' & comps & x & n' & Hd & Hx & _ & ->).
  injection Hd as <-.
  assert (Hp : prop data "recommendedPrice" = VNumber z) by (unfold prop; now rewrite Hz).
  rewrite Hp in Hx. simpl in Hx. injection Hx as <-.
  cbn [recommendedPrice profitMargin success_result]. rewrite Hp.
  repeat split. apply margin_at_zero. exact Hzero.
Qed.

Lemma truthy_not_zero v : truthy v = true -> is_js_zero v = false.
Proof.
  destruct v; simpl; auto. intros Ht. apply negb_true_iff, orb_false_iff in Ht. tauto.
Qed.

(** C10. The [adjustmentFactor] of a result is never the number zero; when
    the payload's [seasonalityFactor] is falsy, an explicit zero included,
    the success-path result has the factor 1. *)
Theorem seasonality_factor_never_zero o input :
  is_js_zero (adjustmentFactor (seasonality (analyzePrice o input))) = false /\
  (forall data r,
     o = Payload data -> attempt o input = Some r ->
     truthy (prop data "seasonalityFactor") = false ->
     adjustmentFactor (seasonality r) = VNumber 1) /\
  (forall data r,
     o = Payload data -> attempt o input = Some r ->
     is_js_zero (prop data "seasonalityFactor") = true ->
     adjustmentFactor (seasonality r) = VNumber 1).
Proof.
  assert (Hdef : forall data r,
     o = Payload data -> attempt o input = Some r ->
     truthy (prop data "seasonalityFactor") = false ->
     adjustmentFactor (seasonality r) = VNumber 1).
  { intros data r Ho Hr Hf.
    destruct (attempt_some _ input r Hr) as (data' & comps & x & n' & Hd & _ & _ & ->).
    rewrite Ho in Hd. injection Hd as <-.
    cbn [seasonality adjustmentFactor success_result]. unfold or_else. now rewrite Hf. }
  split; [|split; [exact Hdef|]].
  - unfold analyzePrice. destruct (attempt o input) as [r|] eqn:E; [|reflexivity].
    destruct (attempt_some _ input r E) as (data & comps & x & n' & _ & _ & _ & ->).
    cbn [seasonality adjustmentFactor success_result]. unfold or_else.
    destruct (truthy (prop data "seasonalityFactor")) eqn:Et; [|reflexivity].
    now apply truthy_not_zero.
  - intros data r Ho Hr Hz. apply (Hdef data r Ho Hr).
    destruct (truthy (prop data "seasonalityFactor")) eqn:Et; auto.
    apply truthy_not_zero in Et. congruence.
Qed.

End Facts.

#[local] Existing Instance example_runtime.

(** C1, as the claim states it, fails on the fallback path: for cost 100
    and margin 20 the result has [recommendedPrice] 120 and [profitMargin]
    20, the desired margin, where the formula gives 16.67. *)
Lemma fallback_margin_is_desired_margin :
  let r := analyzePrice Failed (example_input 100 20) in
  profitMargin r = 20 /\ recommendedPrice r = VNumber 120 /\
  margin_of (recommendedPrice r) 100 = Some (((120 - 100) / 120) * 100) /\
  (((120 - 100) / 120) * 100 <? 17) = true /\
  margin_of (recommendedPrice r) 100 <> Some (profitMargin r).
Proof.
  cbv zeta. repeat split; try (vm_compute; reflexivity).
  intros E.
  apply (f_equal (fun o => match o with Some x => x | None => 0 end)) in E.
  revert E. apply float_neq. vm_compute. reflexivity.
Qed.

(** C2, as the claim states it, fails: the payload [{}], which lacks all six
    required fields (and which the code itself substitutes for a response
    without text), is normalized on the success path. *)
Lemma empty_payload_accepted :
  rejects (VObject []) = false /\
  attempt (Payload (VObject [])) (example_input 100 20)
  = Some {| recommendedPrice := VUndefined;
            priceRange := {| min := VUndefined; suggested := VUndefined;
                             premium := VUndefined |};
            profitMargin := nan;
            confidenceScore := VUndefined;
            explanation := VUndefined;
            evidence := VUndefined;
            strategy := VUndefined;
            seasonality := {| signal := VUndefined;
                              adjustmentFactor := VNumber 1;
                              seasonality_explanation := VUndefined |};
            competitors := [] |}.
Proof. split; vm_compute; reflexivity. Qed.

(** C3, as the claim states it, fails in the price range: for cost 10.01
    and margin 5 the fallback has [recommendedPrice] 10.51, while [min] and
    [suggested] are 10.5105 and [premium] is 12.6126, not 10.51 * 1.2. *)
Lemma fallback_range_not_rounded :
  let r := analyzePrice Failed (example_input 10.01 5) in
  recommendedPrice r = VNumber 10.51 /\
  min (priceRange r) = VNumber 10.5105 /\
  suggested (priceRange r) = VNumber 10.5105 /\
  premium (priceRange r) = VNumber 12.6126 /\
  10.51 * 1.2 = 12.612 /\
  min (priceRange r) <> recommendedPrice r.
Proof.
  cbv zeta. repeat split; try (vm_compute; reflexivity).
  intros E.
  apply (f_equal (fun v => match v with VNumber x => x | _ => 0 end)) in E.
  revert E. apply float_neq. vm_compute. reflexivity.
Qed.

Lemma fallback_result_witness :
  attempt Failed (example_input 100 20) = None /\
  recommendedPrice (analyzePrice Failed (example_input 100 20)) = VNumber 120 /\
  min (priceRange (analyzePrice Failed (example_input 100 20))) = VNumber 120.
Proof.
  split; [reflexivity|].
  destruct (fallback_result Failed (example_input 100 20) eq_refl) as [-> _].
  split; vm_compute; reflexivity.
Defined.

(** C8, as the claim states it, fails: the payload
    [{"recommendedPrice": 0, "competitors": []}] with cost 10 is normalized
    on the success path, with [recommendedPrice] 0 and [profitMargin]
    [-Infinity]; with cost 0 the margin is [NaN]. *)
Lemma zero_price_gives_infinite_margin :
  attempt (Payload zero_price_payload) (example_input 10 20)
  = Some (success_result zero_price_payload (example_input 10 20) [] 0) /\
  recommendedPrice (analyzePrice (Payload zero_price_payload) (example_input 10 20))
  = VNumber 0 /\
  profitMargin (analyzePrice (Payload zero_price_payload) (example_input 10 20))
  = neg_infinity /\
  is_finite
    (profitMargin (analyzePrice (Payload zero_price_payload) (example_input 10 20)))
  = false /\
  profitMargin (analyzePrice (Payload zero_price_payload) (example_input 0 20))
  = nan.
Proof. repeat split; vm_compute; reflexivity. Qed.

Lemma zero_price_margin_witness :
  attempt (Payload zero_price_payload) (example_input 10 20)
  = Some (success_result zero_price_payload (example_input 10 20) [] 0) /\
  get zero_price_payload "recommendedPrice" = Some (VNumber 0) /\
  is_zero 0 = true /\
  is_finite (profitMargin (success_result zero_price_payload (example_input 10 20) [] 0))
  = false.
Proof.
  assert (Ha : attempt (Payload zero_price_payload) (example_input 10 20)
               = Some (success_result zero_price_payload (example_input 10 20) [] 0))
    by (vm_compute; reflexivity).
  split; [exact Ha|]. split; [reflexivity|]. split; [reflexivity|].
  exact (proj2 (proj2 (zero_price_margin_not_finite
                         zero_price_payload (example_input 10 20) _ 0
                         Ha eq_refl eq_refl))).
Defined.

Lemma seasonality_factor_witness :
  attempt (Payload zero_factor_payload) (example_input 10 20)
  = Some (success_result zero_factor_payload (example_input 10 20) [] 12) /\
  is_js_zero (prop zero_factor_payload "seasonalityFactor") = true /\
  adjustmentFactor
    (seasonality (success_result zero_factor_payload (example_input 10 20) [] 12))
  = VNumber 1.
Proof.
  assert (Ha : attempt (Payload zero_factor_payload) (example_input 10 20)
               = Some (success_result zero_factor_payload (example_input 10 20) [] 12))
    by (vm_compute; reflexivity).
  split; [exact Ha|]. split; [reflexivity|].
  exact (proj2 (proj2 (seasonality_factor_never_zero
                         (Payload zero_factor_payload) (example_input 10 20)))
           zero_factor_payload _ eq_refl Ha eq_refl).
Defined.

End PricingFacts.

(** ** The stock status *)

Module StockFacts.

Import Pricing StockMeasure PricingFacts.

(** A draw inside the cell [k] is at most [t/10] exactly when [k < t]. *)
Lemma Qle_bool_cell k t u :
  in_cell k u -> Qle_bool u (t # 10) = (k <? t)%Z.
Proof.
  unfold in_cell, Qlt. destruct u as [p q]. cbn [Qnum Qden]. intros [Hl Hu].
  destruct (k <? t)%Z eqn:E.
  - apply Z.ltb_lt in E. apply Qle_bool_iff. unfold Qle. cbn [Qnum Qden].
    assert ((k + 1) * Zpos q <= t * Zpos q)%Z by nia. lia.
  - apply Z.ltb_ge in E. apply not_true_is_false. intros Hc.
    apply Qle_bool_iff in Hc. unfold Qle in Hc. cbn [Qnum Qden] in Hc.
    assert (t * Zpos q <= k * Zpos q)%Z by nia. lia.
Qed.

Lemma midpoint_in_cell k : in_cell k (midpoint k).
Proof. unfold in_cell, midpoint, Qlt. cbn [Qnum Qden]. lia. Qed.

Lemma status_constant_on_cell k1 k2 u1 u2 :
  in_cell k1 u1 -> in_cell k2 u2 ->
  stockOfDraws u1 u2 = stockOfDraws (midpoint k1) (midpoint k2).
Proof.
  intros H1 H2. unfold stockOfDraws, chooseStock, Qgtb.
  rewrite (Qle_bool_cell k1 8 u1 H1), (Qle_bool_cell k2 9 u2 H2).
  rewrite (Qle_bool_cell k1 8 _ (midpoint_in_cell k1)).
  rewrite (Qle_bool_cell k2 9 _ (midpoint_in_cell k2)).
  reflexivity.
Qed.

Section Facts.
Context `{Runtime}.

Lemma replicateM_cursor c_price k : forall n l n',
  replicateM k (historySample c_price) n = Some (l, n') -> n' = (n + k)%nat.
Proof.
  induction k as [|k IH]; intros n l n'; simpl.
  - unfold ret. intros E. inversion E. lia.
  - unfold bind. rewrite historySample_spec.
    destruct (PrimitiveToNumber c_price); [|discriminate].
    destruct (replicateM k (historySample c_price) (S n)) as [[l1 n1]|] eqn:Er;
      [|discriminate].
    unfold ret. intros E. inversion E. subst. apply IH in Er. lia.
Qed.

Lemma mapCompetitor_status c n comp n' :
  mapCompetitor c n = Some (comp, n') ->
  stockStatus comp
  = chooseStock gtb 0.8%float 0.9%float (random_draws n) (random_draws (S n)) /\
  n' = ((if gtb (random_draws n) 0.8%float then 7 else 8) + n)%nat.
Proof.
  unfold mapCompetitor, bind.
  destruct (lift (get c "name") n) as [[c_name n1]|] eqn:E1; [|discriminate].
  assert (n1 = n).
  { unfold lift in E1. destruct (get c "name"); [|discriminate].
    unfold ret in E1. now inversion E1. }
  subst n1.
  destruct (lift (get c "price") n) as [[c_price n2]|] eqn:E2; [|discriminate].
  assert (n2 = n).
  { unfold lift in E2. destruct (get c "price"); [|discriminate].
    unfold ret in E2. now inversion E2. }
  subst n2. rewrite drawStockStatus_spec.
  set (n1 := if gtb (random_draws n) 0.8%float then S n else S (S n)).
  destruct (lift (get c "trend") n1) as [[c_trend n3]|] eqn:E3; [|discriminate].
  assert (n3 = n1).
  { unfold lift in E3. destruct (get c "trend"); [|discriminate].
    unfold ret in E3. now inversion E3. }
  subst n3.
  destruct (replicateM 6 (historySample c_price) n1) as [[l n4]|] eqn:Er;
    [|discriminate].
  apply replicateM_cursor in Er.
  unfold ret. intros E. inversion E. subst. split; [reflexivity|].
  unfold n1. destruct (gtb (random_draws n) 0.8%float); lia.
Qed.

End Facts.

(** C7, as the claim states it, fails: the three measures are not 0.8, 0.1
    and 0.1. *)
Lemma stock_measure_not_80_10_10 :
  ~ (measure InStock == 80 # 100 /\ measure LowStock == 10 # 100 /\
     measure OutOfStock == 10 # 100).
Proof. intros (H & _). vm_compute in H. discriminate. Qed.

(** C7, amended. A competitor's status is the conditional [chooseStock] of
    the two draws at the cursor where its entry is reached, and the entry
    moves the cursor on by seven or eight draws, so that each entry has
    draws of its own. With exact uniform draws, that conditional is
    constant on each open cell of the 10 x 10 grid of the unit square, and
    the cells make the measure of In Stock 0.72, of Low Stock 0.20 and of
    Out of Stock 0.08. *)
Theorem stock_status_measure :
  (forall (R : Runtime) c n comp n',
     mapCompetitor c n = Some (comp, n') ->
     stockStatus comp
     = chooseStock gtb 0.8%float 0.9%float (random_draws n) (random_draws (S n)) /\
     n' = ((if gtb (random_draws n) 0.8%float then 7 else 8) + n)%nat) /\
  (forall k1 k2 u1 u2,
     in_cell k1 u1 -> in_cell k2 u2 ->
     stockOfDraws u1 u2 = stockOfDraws (midpoint k1) (midpoint k2)) /\
  measure InStock = 72 # 100 /\
  measure LowStock = 20 # 100 /\
  measure OutOfStock = 8 # 100.
Proof.
  split; [intros R c n comp n'; apply mapCompetitor_status|].
  split; [intros k1 k2 u1 u2; apply status_constant_on_cell|].
  repeat split; vm_compute; reflexivity.
Qed.

End StockFacts.

(** * The curve, further *)

Module ConversionFacts.

Import JsNumber Curve Binary64 Binary64Facts CurveFacts CurveTactics.

Lemma ltb_leb x y : (x <? y) = true -> (x <=? y) = true.
Proof.
  rewrite ltb_spec, leb_spec. unfold SFltb, SFleb.
  destruct (SFcompare (Prim2SF x) (Prim2SF y)) as [[| |]|]; auto; discriminate.
Qed.

Lemma ltb_not_leb x y : (x <? y) = true -> (y <=? x) = false.
Proof. intros H. apply leb_false_iff. now left. Qed.

Lemma is_nan_false_spec x : is_nan x = false <-> Prim2SF x <> S754_nan.
Proof.
  rewrite <- is_nan_spec. destruct (is_nan x); split; intros; congruence.
Qed.

(** On numbers that are not [NaN], [<=] is total. *)
Lemma leb_total x y :
  is_nan x = false -> is_nan y = false -> (x <? y) = false -> (y <=? x) = true.
Proof.
  intros Hx Hy Hlt. destruct (y <=? x) eqn:E; auto.
  apply leb_false_iff in E. destruct E as [E|[E|E]]; congruence.
Qed.

(** [Math.max(0, y)] is not negative. *)
Lemma Math_max_zero_nonneg y :
  (0 <=? Math_max 0 y) = true \/ Math_max 0 y = nan.
Proof.
  unfold Math_max. change (is_nan 0) with false. cbn [orb].
  destruct (is_nan y) eqn:Hn; [now right|]. left.
  destruct (0 <? y) eqn:H1; [now apply ltb_leb|].
  destruct (y <? 0) eqn:H2; [reflexivity|].
  change (get_sign 0) with false. reflexivity.
Qed.

(** X1. No point of the curve has negative sales: [estimatedSales] is
    [Math.max(0, ...)], so it is at least 0, or [NaN] when the price or
    the candidate is not a number. *)
Theorem sales_never_negative cp cost pt :
  In pt (calculateConversion cp cost) ->
  (0 <=? estimatedSales pt) = true \/ estimatedSales pt = nan.
Proof.
  rewrite calculateConversion_filter, in_map_iff.
  intros (i & <- & _). unfold point. cbn [estimatedSales].
  apply Math_max_zero_nonneg.
Qed.

Lemma sales_never_negative_witness :
  In {| price := 125; estimatedSales := 63; revenue := 7875 |}
     (calculateConversion 100 50) /\
  ((0 <=? 63) = true \/ 63 = nan).
Proof.
  assert (H : In {| price := 125; estimatedSales := 63; revenue := 7875 |}
                 (calculateConversion 100 50)).
  { vm_compute. repeat (try (left; reflexivity); right). }
  split; [exact H|].
  exact (sales_never_negative 100 50 _ H).
Defined.

(** [x * 0.05] does not overflow, whatever the sign of [x]. *)
Lemma mul005_shape s m e :
  bounded 53 1024 m e = true ->
  SFmul 53 1024 (S754_finite s m e) C005 = S754_zero s \/
  exists ms es, SFmul 53 1024 (S754_finite s m e) C005 = S754_finite s ms es.
Proof.
  intros Hv. destruct (bounded_facts m e Hv) as (Hd & Hr & _).
  assert (H : exists mb eb,
             le_bound (SFmul 53 1024 (S754_finite s m e) C005) s mb eb).
  { unfold C005, SFmul. rewrite xorb_false_r.
    assert (Hdg : (53 <= Zpos (digits2_pos (m * mc)))%Z)
      by (apply digits2_mul_ge; unfold mc; lia).
    destruct (Z_le_gt_dec (-1070) e) as [He|He].
    - exists m, (e - 4)%Z. apply BRA_le; try (unfold K; lia).
      unfold sc, K. rewrite Pos2Z.inj_mul.
      replace (e - 4 + 1200)%Z with (53 + (e + -57 + 1200))%Z by lia.
      rewrite (pow2_split 53) by lia.
      pose proof (pow2_pos (e + -57 + 1200) ltac:(lia)).
      assert (Zpos mc <= 2 ^ 53)%Z by (unfold mc; lia). nia.
    - destruct (b1_val m e Hv ltac:(lia)) as (Hb & Hlt & _ & Hhi).
      exists (b1 m e), (-1074)%Z. apply BRA_le; try (unfold K; lia).
      + apply digits2_le. eapply Z.le_lt_trans; [exact Hhi|]. lia.
      + unfold sc, K. rewrite Pos2Z.inj_mul. unfold units in Hlt.
        replace (e + -57 + 1200)%Z with ((e + 1074) + 69)%Z by lia.
        rewrite (pow2_split (e + 1074)) by lia.
        change (2 ^ (-1074 + 1200))%Z with (2 ^ 57 * 2 ^ 69)%Z.
        assert (0 < 2 ^ 69)%Z by lia. nia. }
  destruct H as (mb & eb & [H|(ms & es & H & _)]); [left|right]; eauto.
Qed.

Lemma is_zero_of_spec x s : Prim2SF x = S754_zero s -> is_zero x = true.
Proof.
  intros H. unfold is_zero. rewrite FloatAxioms.eqb_spec, H.
  destruct s; vm_compute; reflexivity.
Qed.

(** A finite number that is not zero. *)
Lemma finite_nonzero_cases x :
  is_finite x = true -> is_zero x = false ->
  exists s m e, Prim2SF x = S754_finite s m e.
Proof.
  unfold is_finite. intros Hfin Hz.
  apply negb_true_iff, orb_false_iff in Hfin. destruct Hfin as [Hnan Hinf].
  destruct (Prim2SF x) as [s|s| |s m e] eqn:E.
  - rewrite (is_zero_of_spec x s E) in Hz. discriminate.
  - rewrite (is_infinity_spec x s E) in Hinf. discriminate.
  - apply is_nan_spec in E. congruence.
  - eauto.
Qed.

(** At offset 0 the candidate price is the price itself. *)
Lemma candidate_zero_offset cp :
  is_finite cp = true -> is_zero cp = false -> candidate cp 0 = cp.
Proof.
  intros Hfin Hz. destruct (finite_nonzero_cases cp Hfin Hz) as (s & m & e & Hcp).
  apply Prim2SF_inj. rewrite candidate_spec, Hcp.
  pose proof (Prim2SF_valid cp) as Hv. rewrite Hcp in Hv. cbn [valid_binary] in Hv.
  replace (Prim2SF (Z2float 0)) with (S754_zero false) by (vm_compute; reflexivity).
  destruct (mul005_shape s m e Hv) as [H|(ms & es & H)]; rewrite H; reflexivity.
Qed.

Lemma sub_self x s m e :
  Prim2SF x = S754_finite s m e -> x - x = 0.
Proof.
  intros Hx. apply Prim2SF_inj. rewrite sub_spec, Hx, Prim2SF_zero.
  unfold SF64sub, SFsub. rewrite Z.sub_diag. reflexivity.
Qed.

Lemma zero_div x s m e :
  Prim2SF x = S754_finite s m e -> 0 / x = if s then neg_zero else zero.
Proof.
  intros Hx. apply Prim2SF_inj. rewrite div_spec, Hx, Prim2SF_zero.
  destruct s; vm_compute; reflexivity.
Qed.

Lemma baseline_point cp :
  is_finite cp = true -> is_zero cp = false ->
  point cp 0 = {| price := toFixed2 cp; estimatedSales := 100;
                  revenue := toFixed2 (cp * 100) |}.
Proof.
  intros Hfin Hz. destruct (finite_nonzero_cases cp Hfin Hz) as (s & m & e & Hcp).
  unfold point. rewrite (candidate_zero_offset cp Hfin Hz).
  rewrite (sub_self cp s m e Hcp), (zero_div cp s m e Hcp).
  assert (Hs : Math_max 0
            (Math_round (100 * (1 + - elasticity * (if s then neg_zero else zero))))
          = 100) by (destruct s; vm_compute; reflexivity).
  rewrite Hs. reflexivity.
Qed.

(** X2. For a finite price that is not zero and is above the cost, the
    candidate at offset 0 is the price itself, exactly, and the curve
    holds the baseline point: the price rounded to cents, 100 sales, the
    revenue [price * 100] rounded to cents. *)
Theorem baseline_in_curve cp cost :
  is_finite cp = true -> is_zero cp = false -> (cp <=? cost) = false ->
  candidate cp 0 = cp /\
  In {| price := toFixed2 cp; estimatedSales := 100;
        revenue := toFixed2 (cp * 100) |}
     (calculateConversion cp cost).
Proof.
  intros Hfin Hz Hc. split; [now apply candidate_zero_offset|].
  rewrite calculateConversion_filter, <- (baseline_point cp Hfin Hz).
  apply in_map. apply filter_In. split.
  - apply in_offsets. lia.
  - unfold emitted. rewrite (candidate_zero_offset cp Hfin Hz), Hc. reflexivity.
Qed.

Lemma baseline_in_curve_witness :
  is_finite 19.99 = true /\ is_zero 19.99 = false /\ (19.99 <=? 12) = false /\
  In {| price := toFixed2 19.99; estimatedSales := 100;
        revenue := toFixed2 (19.99 * 100) |}
     (calculateConversion 19.99 12).
Proof.
  split; [reflexivity|]. split; [reflexivity|]. split; [reflexivity|].
  exact (proj2 (baseline_in_curve 19.99 12 eq_refl eq_refl eq_refl)).
Defined.

(** X3. For the price 0 and a negative cost nothing is skipped and every
    division is by zero: the curve is eleven times the point with price 0
    and [NaN] sales and revenue. *)
Theorem zero_price_negative_cost cost :
  (cost <? 0) = true ->
  calculateConversion 0 cost
  = repeat {| price := 0; estimatedSales := nan; revenue := nan |} 11 /\
  divisors (run 0 cost) = repeat 0 11.
Proof.
  intros Hc.
  assert (Hf : filter (emitted 0 cost) offsets = offsets).
  { apply forallb_filter_id. apply forallb_forall. intros i Hi. unfold emitted.
    replace (candidate 0 i) with 0 by (offset_cases Hi; vm_compute; reflexivity).
    rewrite (ltb_not_leb cost 0 Hc). reflexivity. }
  rewrite calculateConversion_filter, divisors_filter, Hf.
  split; vm_compute; reflexivity.
Qed.

Lemma zero_price_negative_cost_witness :
  ((-1) <? 0) = true /\
  calculateConversion 0 (-1)
  = repeat {| price := 0; estimatedSales := nan; revenue := nan |} 11.
Proof.
  split; [reflexivity|].
  exact (proj1 (zero_price_negative_cost (-1) eq_refl)).
Defined.

End ConversionFacts.

(** * The dashboard *)

Module DashboardFacts.

Import JsNumber Curve Binary64 Binary64Facts CurveFacts Dashboard.
Import FloatTactics ConversionFacts.

Lemma SFleb_trans a b c :
  SFleb a b = true -> SFleb b c = true -> SFleb a c = true.
Proof.
  unfold SFleb.
  destruct a as [sa|sa| |sa ma ea], b as [sb|sb| |sb mb eb],
           c as [sc|sc| |sc mc ec]; cbn [SFcompare];
    try discriminate; try reflexivity;
    try (destruct sa; try discriminate; try reflexivity);
    try (destruct sb; try discriminate; try reflexivity);
    try (destruct sc; try discriminate; try reflexivity);
    intros H1 H2; cmp_cases.
Qed.

Lemma ltb_irrefl x : (x <? x) = false.
Proof.
  rewrite ltb_spec. unfold SFltb.
  destruct (Prim2SF x) as [s|s| |s m e] eqn:E; [| |reflexivity|];
    rewrite SFcompare_refl by discriminate; reflexivity.
Qed.

Lemma leb_refl x : is_nan x = false -> (x <=? x) = true.
Proof. intros H. apply leb_total; auto. apply ltb_irrefl. Qed.

Lemma leb_trans x y z :
  (x <=? y) = true -> (y <=? z) = true -> (x <=? z) = true.
Proof. rewrite !leb_spec. apply SFleb_trans. Qed.

(** [Math.max] of two numbers that are not [NaN] is one of them and is
    below neither. *)
Lemma Math_max_cases a b :
  is_nan a = false -> is_nan b = false ->
  (Math_max a b = a \/ Math_max a b = b) /\
  (a <=? Math_max a b) = true /\ (b <=? Math_max a b) = true.
Proof.
  intros Ha Hb. unfold Math_max. rewrite Ha, Hb. cbn [orb].
  destruct (a <? b) eqn:H1.
  - split; [now right|]. split; [now apply ltb_leb | now apply leb_refl].
  - destruct (b <? a) eqn:H2.
    + split; [now left|]. split; [now apply leb_refl | now apply ltb_leb].
    + destruct (get_sign a).
      * split; [now right|]. split; [now apply leb_total | now apply leb_refl].
      * split; [now left|]. split; [now apply leb_refl | now apply leb_total].
Qed.

Lemma Math_max_nan_l b : Math_max nan b = nan.
Proof. reflexivity. Qed.

Lemma Math_max_nan_r a b : is_nan b = true -> Math_max a b = nan.
Proof. intros H. unfold Math_max. rewrite H, orb_true_r. reflexivity. Qed.

Lemma fold_max_nan xs : fold_left Math_max xs nan = nan.
Proof. induction xs as [|x xs IH]; simpl; auto. Qed.

Lemma fold_max_has_nan xs : forall h,
  (exists x, In x xs /\ is_nan x = true) -> fold_left Math_max xs h = nan.
Proof.
  induction xs as [|x xs IH]; intros h (y & Hy & Hn); simpl in *; [contradiction|].
  destruct Hy as [->|Hy].
  - rewrite (Math_max_nan_r h y Hn). apply fold_max_nan.
  - apply IH. eauto.
Qed.

Lemma fold_max_bounds xs : forall h,
  is_nan h = false -> (forall x, In x xs -> is_nan x = false) ->
  let r := fold_left Math_max xs h in
  is_nan r = false /\ (h <=? r) = true /\
  (forall x, In x xs -> (x <=? r) = true) /\ (r = h \/ In r xs).
Proof.
  induction xs as [|x xs IH]; intros h Hh Hxs; cbn zeta; simpl.
  - repeat split; auto; try (now apply leb_refl); try (intros x []).
  - assert (Hx : is_nan x = false) by (apply Hxs; now left).
    destruct (Math_max_cases h x Hh Hx) as (Hc & Hl1 & Hl2).
    assert (Hm : is_nan (Math_max h x) = false) by (destruct Hc as [-> | ->]; auto).
    destruct (IH (Math_max h x) Hm (fun y Hy => Hxs y (or_intror Hy)))
      as (Hr & Hle & Hall & Hin).
    cbn zeta in *. repeat split; auto.
    + eapply leb_trans; eauto.
    + intros y [<-|Hy]; [eapply leb_trans; eauto | now apply Hall].
    + destruct Hin as [Hin|Hin]; [|now right; right].
      rewrite Hin. destruct Hc as [-> | ->]; [now left | now right; left].
Qed.

Lemma below_neg_infinity x :
  (x <=? neg_infinity) = true -> x = neg_infinity.
Proof.
  rewrite leb_spec. intros H. apply Prim2SF_inj.
  replace (Prim2SF neg_infinity) with (S754_infinity true) in *
    by (vm_compute; reflexivity).
  unfold SFleb in H.
  destruct (Prim2SF x) as [s|s| |s m e]; simpl in H; try discriminate;
    destruct s; try discriminate; reflexivity.
Qed.

Lemma spread_attained xs :
  xs <> [] -> (forall x, In x xs -> is_nan x = false) ->
  In (Math_max_spread xs) xs /\
  forall x, In x xs -> (x <=? Math_max_spread xs) = true.
Proof.
  intros Hne Hxs. unfold Math_max_spread.
  destruct (fold_max_bounds xs neg_infinity eq_refl Hxs) as (_ & _ & Hall & Hin).
  cbn zeta in *. split; [|exact Hall].
  destruct Hin as [Hin|Hin]; [|exact Hin].
  destruct xs as [|x xs]; [congruence|].
  assert (Hx : (x <=? fold_left Math_max (x :: xs) neg_infinity) = true)
    by (apply Hall; now left).
  rewrite Hin in Hx. apply below_neg_infinity in Hx. rewrite Hin, <- Hx. now left.
Qed.

(** The largest revenue of a curve without [NaN] is the revenue of one of
    its points and is below none. *)
Lemma max_revenue_attained data :
  data <> [] -> (forall d, In d data -> is_nan (revenue d) = false) ->
  (exists d, In d data /\ revenue d = optimalRevenue data) /\
  (forall d, In d data -> (revenue d <=? optimalRevenue data) = true).
Proof.
  intros Hne Hnn. unfold optimalRevenue.
  assert (Hm : map revenue data <> []) by (destruct data; simpl; congruence).
  assert (Hx : forall x, In x (map revenue data) -> is_nan x = false).
  { intros x Hx. apply in_map_iff in Hx. destruct Hx as (d & <- & Hd). auto. }
  destruct (spread_attained _ Hm Hx) as (Hin & Hall). split.
  - apply in_map_iff in Hin. destruct Hin as (d & Hd & Hi). eauto.
  - intros d Hd. apply Hall. now apply in_map.
Qed.

(** X4. The figure shown as Optimal Revenue: minus infinity for an empty
    curve; [NaN] as soon as one revenue is [NaN]; otherwise the revenue
    of one of the points, and no point has a larger one. *)
Theorem optimal_revenue_is_maximum data :
  (data = [] -> optimalRevenue data = neg_infinity) /\
  ((exists d, In d data /\ is_nan (revenue d) = true) ->
   optimalRevenue data = nan) /\
  (data <> [] -> (forall d, In d data -> is_nan (revenue d) = false) ->
   (exists d, In d data /\ revenue d = optimalRevenue data) /\
   (forall d, In d data -> (revenue d <=? optimalRevenue data) = true)).
Proof.
  unfold optimalRevenue. split; [intros ->; reflexivity|]. split.
  - intros (d & Hd & Hn). apply fold_max_has_nan. exists (revenue d).
    split; auto. now apply in_map.
  - intros Hne Hnn. fold (optimalRevenue data).
    now apply max_revenue_attained.
Qed.

Lemma optimal_revenue_witness :
  calculateConversion 100 50 <> [] /\
  (forall d, In d (calculateConversion 100 50) -> is_nan (revenue d) = false) /\
  (exists d, In d (calculateConversion 100 50) /\
             revenue d = optimalRevenue (calculateConversion 100 50)) /\
  (forall d, In d (calculateConversion 100 50) ->
             (revenue d <=? optimalRevenue (calculateConversion 100 50)) = true).
Proof.
  assert (Hne : calculateConversion 100 50 <> []) by (vm_compute; discriminate).
  assert (Hnn : forall d, In d (calculateConversion 100 50) ->
                          is_nan (revenue d) = false).
  { intros d Hd. vm_compute in Hd.
    repeat (destruct Hd as [<-|Hd]; [reflexivity|]). contradiction. }
  split; [exact Hne|]. split; [exact Hnn|].
  exact (proj2 (proj2 (optimal_revenue_is_maximum (calculateConversion 100 50)))
           Hne Hnn).
Defined.

(** X5. For a finite price that is zero or negative and a cost that is
    not negative, the dashboard has nothing to draw: [RevenueChart]
    returns [null] and the Optimal Revenue figure is minus infinity. *)
Theorem nonpositive_price_dashboard cp cost :
  (cp <=? 0) = true -> is_finite cp = true -> (0 <=? cost) = true ->
  RevenueChart (calculateConversion cp cost) = None /\
  optimalRevenue (calculateConversion cp cost) = neg_infinity.
Proof.
  intros Hcp Hfin Hcost.
  assert (He : calculateConversion cp cost = []).
  { rewrite calculateConversion_filter, filter_none; [reflexivity|].
    intros i Hi. now apply candidate_skipped. }
  rewrite He. split; reflexivity.
Qed.

Lemma nonpositive_price_dashboard_witness :
  (0 <=? 0) = true /\ is_finite 0 = true /\ (0 <=? 10) = true /\
  RevenueChart (calculateConversion 0 10) = None /\
  optimalRevenue (calculateConversion 0 10) = neg_infinity.
Proof.
  split; [reflexivity|]. split; [reflexivity|]. split; [reflexivity|].
  apply (nonpositive_price_dashboard 0 10); reflexivity.
Defined.

(** A finite number that is not zero, divided by itself, is 1. *)
Lemma div_self x s m e : Prim2SF x = S754_finite s m e -> x / x = 1.
Proof.
  intros Hx. apply Prim2SF_inj. rewrite div_spec, Hx.
  unfold SF64div, SFdiv, SFdiv_core_binary.
  rewrite !Z.sub_diag. cbn [Zdigits2].
  change (Z.min (fexp prec emax 0) 0) with (-53)%Z.
  change (0 - -53)%Z with 53%Z. cbv beta iota zeta.
  assert (Hq : Z.div_eucl (Z.shiftl (Zpos m) 53) (Zpos m) = (2 ^ 53, 0)%Z).
  { pose proof (Z_div_mod (Z.shiftl (Zpos m) 53) (Zpos m) ltac:(lia)) as Hd.
    destruct (Z.div_eucl (Z.shiftl (Zpos m) 53) (Zpos m)) as [q r].
    rewrite Z.shiftl_mul_pow2 in Hd by lia. destruct Hd as [Hd Hr].
    assert (q = 2 ^ 53)%Z by nia. subst q. f_equal. lia. }
  rewrite Hq.
  assert (Hl : new_location (Zpos m) 0 = loc_Exact).
  { unfold new_location, new_location_even, new_location_odd.
    destruct (Z.even (Zpos m)); reflexivity. }
  rewrite Hl, xorb_nilpotent. vm_compute. reflexivity.
Qed.

Lemma map_indexed_length {A B} (f : nat -> A -> B) l : forall i,
  List.length (map_indexed f i l) = List.length l.
Proof. induction l as [|a l IH]; intros i; simpl; auto. Qed.

Lemma map_indexed_nth {A B} (f : nat -> A -> B) l : forall i k a,
  nth_error l k = Some a ->
  nth_error (map_indexed f i l) k = Some (f (i + k)%nat a).
Proof.
  induction l as [|b l IH]; intros i k a; destruct k; simpl; try discriminate.
  - intros E. injection E as ->. now rewrite Nat.add_0_r.
  - intros E. rewrite (IH (S i) k a E). f_equal. f_equal. lia.
Qed.

(** X6. [RevenueChart] draws one bar per point, and when the largest
    revenue is finite and not zero, the bar of a point with that revenue
    is exactly 210 high and starts at [y = 40]. *)
Theorem tallest_bar_height data bars :
  RevenueChart data = Some bars ->
  (forall d, In d data -> is_nan (revenue d) = false) ->
  is_finite (optimalRevenue data) = true ->
  is_zero (optimalRevenue data) = false ->
  List.length bars = List.length data /\
  exists k d b,
    nth_error data k = Some d /\ nth_error bars k = Some b /\
    revenue d = optimalRevenue data /\
    bar_height b = 210 /\ bar_y b = 40.
Proof.
  intros Hc Hnn Hfin Hz. unfold RevenueChart in Hc.
  destruct data as [|d0 data'] eqn:Ed; [discriminate|]. rewrite <- Ed in *.
  assert (Hne : data <> []) by (rewrite Ed; discriminate).
  assert (Hb : bars = map_indexed
                 (bar_of (Math_max_spread (map revenue data))
                    (Z2float (Z.of_nat (List.length data)))) 0 data).
  { rewrite Ed in *. now injection Hc as <-. }
  clear Hc. split; [rewrite Hb; apply map_indexed_length|].
  destruct (max_revenue_attained data Hne Hnn) as ((d & Hd & Hrev) & _).
  destruct (In_nth_error _ _ Hd) as [k Hk].
  exists k, d. eexists. split; [exact Hk|]. split.
  - rewrite Hb. apply map_indexed_nth. exact Hk.
  - destruct (finite_nonzero_cases _ Hfin Hz) as (s & m & e & Hs).
    fold (optimalRevenue data). unfold bar_of. cbn [bar_height bar_y].
    rewrite Hrev, (div_self _ s m e Hs).
    repeat split; vm_compute; reflexivity.
Qed.

Lemma tallest_bar_witness :
  exists bars,
    RevenueChart (calculateConversion 100 50) = Some bars /\
    List.length bars = 11%nat /\
    exists k d b,
      nth_error (calculateConversion 100 50) k = Some d /\
      nth_error bars k = Some b /\
      revenue d = optimalRevenue (calculateConversion 100 50) /\
      bar_height b = 210 /\ bar_y b = 40.
Proof.
  destruct (RevenueChart (calculateConversion 100 50)) as [bars|] eqn:E;
    [|vm_compute in E; discriminate].
  exists bars. split; [reflexivity|].
  assert (Hnn : forall d, In d (calculateConversion 100 50) ->
                          is_nan (revenue d) = false).
  { intros d Hd. vm_compute in Hd.
    repeat (destruct Hd as [<-|Hd]; [reflexivity|]). contradiction. }
  destruct (tallest_bar_height _ bars E Hnn eq_refl eq_refl) as [Hl Hk].
  split; [rewrite Hl; reflexivity | exact Hk].
Defined.

End DashboardFacts.

(** * The normalizer, further *)

Module NormalizerFacts.

Import JsNumber Js Pricing Draws PricingFacts StockFacts.

#[local] Open Scope string_scope.
#[local] Open Scope float_scope.

Section Facts.
Context `{Runtime}.

Lemma replicateM_history_samples c_price x k : forall n,
  PrimitiveToNumber c_price = Some x ->
  replicateM k (historySample c_price) n
  = Some (map (fun j => sample x (random_draws j)) (seq n k), (n + k)%nat).
Proof.
  induction k as [|k IH]; intros n Hx; simpl.
  - unfold ret. now rewrite Nat.add_0_r.
  - unfold bind. rewrite historySample_spec, Hx, (IH (S n) Hx).
    unfold ret, sample. do 2 f_equal. lia.
Qed.

(** What the callback makes of one entry. *)
Lemma mapCompetitor_some c n comp n' :
  mapCompetitor c n = Some (comp, n') ->
  exists x,
    PrimitiveToNumber (prop c "price") = Some x /\
    competitor_name comp = prop c "name" /\
    competitor_price comp = prop c "price" /\
    trend comp = or_else (prop c "trend") (VString "stable") /\
    history comp
    = rev (map (fun j => sample x (random_draws j)) (seq (n' - 6) 6)) /\
    (n + 7 <= n' <= n + 8)%nat.
Proof.
  intros Hm. pose proof (mapCompetitor_status c n comp n' Hm) as [_ Hn'].
  assert (Hbad : bad_competitor c = false).
  { destruct (bad_competitor c) eqn:E; auto.
    apply mapCompetitor_none with (n := n) in E. congruence. }
  unfold bad_competitor in Hbad.
  destruct (get c "price") as [p|] eqn:Ep; [|discriminate].
  destruct (PrimitiveToNumber p) as [x|] eqn:Ex; [|discriminate].
  assert (Hp : prop c "price" = p) by (unfold prop; now rewrite Ep).
  exists x. rewrite Hp. split; [exact Ex|].
  revert Hm. unfold mapCompetitor, bind.
  rewrite (get_total c _ _ Ep "name"), (get_total c _ _ Ep "price"),
          (get_total c _ _ Ep "trend"), Hp.
  unfold lift, ret. cbv beta iota. rewrite drawStockStatus_spec.
  set (n1 := if gtb (random_draws n) 0.8 then S n else S (S n)).
  rewrite (replicateM_history_samples p x 6 n1 Ex).
  intros E. inversion E. subst. cbn [competitor_name competitor_price trend history].
  replace (n1 + 6 - 6)%nat with n1 by lia.
  repeat split; auto; unfold n1; destruct (gtb (random_draws n) 0.8); lia.
Qed.

Lemma mapM_Forall2 {A B} (f : A -> M B) (P : A -> B -> Prop) :
  (forall a n b n', f a n = Some (b, n') -> P a b) ->
  forall l n bs n', mapM f l n = Some (bs, n') -> Forall2 P l bs.
Proof.
  intros Hf. induction l as [|a l IH]; intros n bs n'; simpl.
  - unfold ret. intros E. inversion E. constructor.
  - unfold bind. destruct (f a n) as [[b n1]|] eqn:Ea; [|discriminate].
    destruct (mapM f l n1) as [[bs1 n2]|] eqn:El; [|discriminate].
    unfold ret. intros E. inversion E. subst. constructor; eauto.
Qed.

Lemma mapM_cursor {A B} (f : A -> M B) (lo hi : nat) :
  (forall a n b n', f a n = Some (b, n') -> (n + lo <= n' <= n + hi)%nat) ->
  forall l n bs n', mapM f l n = Some (bs, n') ->
  (n + lo * List.length bs <= n' <= n + hi * List.length bs)%nat.
Proof.
  intros Hf. induction l as [|a l IH]; intros n bs n'; simpl.
  - unfold ret. intros E. inversion E. simpl. lia.
  - unfold bind. destruct (f a n) as [[b n1]|] eqn:Ea; [|discriminate].
    destruct (mapM f l n1) as [[bs1 n2]|] eqn:El; [|discriminate].
    unfold ret. intros E. inversion E. subst.
    apply Hf in Ea. apply IH in El. simpl. lia.
Qed.

(** A successful normalization, taken apart. *)
Lemma normalize_some data input n r n' :
  normalize data input n = Some (r, n') ->
  exists items comps x,
    or_else (prop data "competitors") (VArray []) = VArray items /\
    mapM mapCompetitor items n = Some (comps, n') /\
    ToNumber (prop data "recommendedPrice") = Some x /\
    r = success_result data input comps x.
Proof.
  rewrite normalize_unfold.
  destruct (get data "competitors") as [dc|] eqn:E; [|discriminate].
  assert (Hp : prop data "competitors" = dc) by (unfold prop; now rewrite E).
  rewrite Hp. unfold array_map.
  destruct (or_else dc (VArray [])) as [| | | | |items|]; try discriminate.
  destruct (mapM mapCompetitor items n) as [[comps n1]|] eqn:Em; [|discriminate].
  destruct (ToNumber (prop data "recommendedPrice")) as [x|] eqn:Ex; [|discriminate].
  intros E1. inversion E1. subst. exists items, comps, x. auto.
Qed.

(** The competitors of a successful normalization, entry by entry. *)
Lemma competitors_shape data input n r n' :
  normalize data input n = Some (r, n') ->
  exists items,
    or_else (prop data "competitors") (VArray []) = VArray items /\
    Forall2
      (fun c comp =>
         competitor_name comp = prop c "name" /\
         competitor_price comp = prop c "price" /\
         trend comp = or_else (prop c "trend") (VString "stable") /\
         exists x k,
           PrimitiveToNumber (prop c "price") = Some x /\
           history comp
           = rev (map (fun j => sample x (random_draws j)) (seq k 6)))
      items (competitors r).
Proof.
  intros Hn.
  destruct (normalize_some _ _ _ _ _ Hn) as (items & comps & x & Hi & Hm & _ & ->).
  exists items. split; [exact Hi|]. cbn [competitors success_result].
  eapply mapM_Forall2; [|exact Hm].
  intros c k comp k' Hc.
  destruct (mapCompetitor_some c k comp k' Hc)
    as (y & Hy & Hname & Hprice & Ht & Hh & _).
  repeat split; auto. exists y, (k' - 6)%nat. auto.
Qed.

(** X7. A successful normalization has one competitor per entry of the
    payload's [competitors], in the same order: name and price are taken
    as they are, a missing or empty trend reads ["stable"], and the
    history is six samples [toFixed2 (x + (u - 0.5) * (x * 0.1))] of the
    price [x], for six successive draws [u], the last draw first. *)
Theorem competitors_follow_payload data input n r n' :
  normalize data input n = Some (r, n') ->
  exists items,
    or_else (prop data "competitors") (VArray []) = VArray items /\
    Forall2
      (fun c comp =>
         competitor_name comp = prop c "name" /\
         competitor_price comp = prop c "price" /\
         trend comp = or_else (prop c "trend") (VString "stable") /\
         List.length (history comp) = 6%nat /\
         exists x k,
           PrimitiveToNumber (prop c "price") = Some x /\
           history comp
           = rev (map (fun j => sample x (random_draws j)) (seq k 6)))
      items (competitors r).
Proof.
  intros Hn. destruct (competitors_shape _ _ _ _ _ Hn) as (items & Hi & HF).
  exists items. split; [exact Hi|].
  eapply Forall2_impl; [|exact HF]. cbv beta.
  intros c comp (Hname & Hprice & Ht & x & k & Hx & Hh).
  repeat split; auto.
  - rewrite Hh, length_rev, length_map, length_seq. reflexivity.
  - exists x, k. auto.
Qed.

(** X8. A successful normalization calls [Math.random()] seven or eight
    times per competitor, and not otherwise: the cursor into the draws
    advances by at least 7 and at most 8 times the number of
    competitors. *)
Theorem draws_per_competitor data input n r n' :
  normalize data input n = Some (r, n') ->
  (n + 7 * List.length (competitors r) <= n'
   <= n + 8 * List.length (competitors r))%nat.
Proof.
  intros Hn. destruct (normalize_some _ _ _ _ _ Hn) as (items & comps & x & _ & Hm & _ & ->).
  cbn [competitors success_result].
  eapply mapM_cursor; [|exact Hm].
  intros c k comp k' Hc.
  destruct (mapCompetitor_some c k comp k' Hc) as (y & _ & _ & _ & _ & _ & Hk). exact Hk.
Qed.

End Facts.

Lemma rejects_with_draws (R : Runtime) draws data :
  @rejects (with_draws R draws) data = @rejects R data.
Proof. reflexivity. Qed.

Lemma Forall2_same_source {A B} (P1 P2 : A -> B -> Prop) (Q : B -> B -> Prop) :
  (forall a b1 b2, P1 a b1 -> P2 a b2 -> Q b1 b2) ->
  forall l l1 l2, Forall2 P1 l l1 -> Forall2 P2 l l2 -> Forall2 Q l1 l2.
Proof.
  intros H l l1 l2 H1. revert l2. induction H1; intros l2 H2; inversion H2; subst;
    constructor; eauto.
Qed.

(** X9. The draws decide nothing but stock status and history: if the
    normalization succeeds with one sequence of draws it succeeds with
    any other, and the two results agree on every field of the result
    and on the name, price and trend of every competitor. *)
Theorem draws_change_only_stock_and_history (R : Runtime) draws data input n r n' :
  @normalize R data input n = Some (r, n') ->
  exists r2 n2,
    @normalize (with_draws R draws) data input n = Some (r2, n2) /\
    recommendedPrice r2 = recommendedPrice r /\
    priceRange r2 = priceRange r /\
    profitMargin r2 = profitMargin r /\
    confidenceScore r2 = confidenceScore r /\
    explanation r2 = explanation r /\
    evidence r2 = evidence r /\
    strategy r2 = strategy r /\
    seasonality r2 = seasonality r /\
    Forall2
      (fun c c2 =>
         competitor_name c2 = competitor_name c /\
         competitor_price c2 = competitor_price c /\
         trend c2 = trend c)
      (competitors r) (competitors r2).
Proof.
  intros Hn.
  assert (Hok : @rejects R data = false).
  { destruct (@rejects R data) eqn:E; auto.
    apply (@normalize_none R data input n) in E. congruence. }
  destruct (@normalize (with_draws R draws) data input n) as [[r2 n2]|] eqn:E2.
  - exists r2, n2. split; [reflexivity|].
    pose proof (@competitors_shape R _ _ _ _ _ Hn) as (items & Hi & HF).
    pose proof (@competitors_shape (with_draws R draws) _ _ _ _ _ E2)
      as (items2 & Hi2 & HF2).
    rewrite Hi in Hi2. inversion Hi2. subst items2.
    destruct (@normalize_some R _ _ _ _ _ Hn) as (i1 & c1 & x1 & _ & _ & Hx1 & ->).
    destruct (@normalize_some (with_draws R draws) _ _ _ _ _ E2)
      as (i2 & c2 & x2 & _ & _ & Hx2 & ->).
    change (@ToNumber (with_draws R draws)) with (@ToNumber R) in Hx2.
    rewrite Hx1 in Hx2.
    apply (f_equal (fun o => match o with Some y => y | None => 0 end)) in Hx2.
    subst x2. cbn [recommendedPrice priceRange profitMargin confidenceScore
                   explanation evidence strategy seasonality competitors
                   success_result] in *.
    repeat split; auto.
    eapply Forall2_same_source; [|exact HF|exact HF2].
    intros a b1 b2 (A1 & A2 & A3 & _) (B1 & B2 & B3 & _). repeat split; congruence.
  - apply (@normalize_none (with_draws R draws)) in E2.
    rewrite rejects_with_draws in E2. congruence.
Qed.

#[local] Existing Instance example_runtime.

Lemma competitors_follow_payload_witness :
  exists r n',
    normalize market_payload (example_input 10 20) 0%nat = Some (r, n') /\
    exists items,
      or_else (prop market_payload "competitors") (VArray []) = VArray items /\
      Forall2
        (fun c comp =>
           competitor_name comp = prop c "name" /\
           competitor_price comp = prop c "price" /\
           trend comp = or_else (prop c "trend") (VString "stable") /\
           List.length (history comp) = 6%nat /\
           exists x k,
             PrimitiveToNumber (prop c "price") = Some x /\
             history comp
             = rev (map (fun j => sample x (random_draws j)) (seq k 6)))
        items (competitors r).
Proof.
  destruct (normalize market_payload (example_input 10 20) 0%nat) as [[r n']|] eqn:E;
    [|vm_compute in E; discriminate].
  exists r, n'. split; [reflexivity|].
  exact (competitors_follow_payload market_payload (example_input 10 20) 0%nat r n' E).
Defined.

Lemma draws_per_competitor_witness :
  exists r n',
    normalize market_payload (example_input 10 20) 0%nat = Some (r, n') /\
    (0 + 7 * List.length (competitors r) <= n'
     <= 0 + 8 * List.length (competitors r))%nat.
Proof.
  destruct (normalize market_payload (example_input 10 20) 0%nat) as [[r n']|] eqn:E;
    [|vm_compute in E; discriminate].
  exists r, n'. split; [reflexivity|].
  exact (draws_per_competitor market_payload (example_input 10 20) 0%nat r n' E).
Defined.

Lemma draws_change_witness :
  exists r n',
    normalize market_payload (example_input 10 20) 0%nat = Some (r, n') /\
    exists r2 n2,
      @normalize (with_draws example_runtime (fun _ => 0.85))
        market_payload (example_input 10 20) 0%nat = Some (r2, n2) /\
      recommendedPrice r2 = recommendedPrice r /\
      profitMargin r2 = profitMargin r.
Proof.
  destruct (normalize market_payload (example_input 10 20) 0%nat) as [[r n']|] eqn:E;
    [|vm_compute in E; discriminate].
  exists r, n'. split; [reflexivity|].
  destruct (draws_change_only_stock_and_history example_runtime (fun _ => 0.85)
              market_payload (example_input 10 20) 0%nat r n' E)
    as (r2 & n2 & H2 & Hp & _ & Hm & _).
  exists r2, n2. auto.
Defined.

End NormalizerFacts.

(** * The rule engine *)

Module RulesFacts.

Import Rules.

#[local] Open Scope string_scope.

Lemma toggled_twice i r : toggled i (toggled i r) = r.
Proof.
  destruct r as [k c o v a b]. unfold toggled. cbn [id].
  destruct (String.eqb k i) eqn:E; cbn [id active conditionField operator value action];
    rewrite ?E, ?negb_involutive; reflexivity.
Qed.

Lemma toggled_fields i r :
  id (toggled i r) = id r /\ conditionField (toggled i r) = conditionField r /\
  operator (toggled i r) = operator r /\ value (toggled i r) = value r /\
  action (toggled i r) = action r /\
  active (toggled i r) = (if String.eqb (id r) i then negb (active r) else active r).
Proof. unfold toggled. destruct (String.eqb (id r) i); repeat split. Qed.

Lemma toggled_absent i r : id r <> i -> toggled i r = r.
Proof.
  intros Hne. unfold toggled. destruct (String.eqb_spec (id r) i); congruence.
Qed.

(** X10. Pressing the button of a rule changes nothing but [active],
    and that of exactly the rules with the given [id]; pressing it again
    restores the state; an [id] that no rule has changes nothing. *)
Theorem toggleRule_flips_and_restores i st :
  toggleRule i (toggleRule i st) = st /\
  Forall2
    (fun r r' =>
       id r' = id r /\ conditionField r' = conditionField r /\
       operator r' = operator r /\ value r' = value r /\
       action r' = action r /\
       active r' = (if String.eqb (id r) i then negb (active r) else active r))
    (rules st) (rules (toggleRule i st)) /\
  ((forall r, In r (rules st) -> id r <> i) -> toggleRule i st = st).
Proof.
  destruct st as [rs mo nr]. unfold toggleRule. cbn [rules isModalOpen newRule].
  split; [|split].
  - f_equal. rewrite map_map. rewrite <- (map_id rs) at 2.
    apply map_ext. intros r. apply toggled_twice.
  - induction rs as [|r rs IH]; simpl; constructor; auto. apply toggled_fields.
  - intros Hno. f_equal. rewrite <- (map_id rs) at 2.
    apply map_ext_in. intros r Hr. apply toggled_absent. now apply Hno.
Qed.

(** X11. Submitting the rule form twice in a row does what submitting it
    once does: a rejected submission leaves the state as it is, and an
    accepted one resets the form to an empty threshold and action, which
    the next submission rejects. *)
Theorem handleCreateRule_once f1 f2 st :
  handleCreateRule f2 (handleCreateRule f1 st) = handleCreateRule f1 st.
Proof.
  unfold handleCreateRule at 2 3.
  destruct (draft_conditionField (newRule st)) as [c|] eqn:Ec;
  [destruct (draft_operator (newRule st)) as [o|] eqn:Eo;
   [destruct (draft_value (newRule st)) as [v|] eqn:Ev;
    [destruct (draft_action (newRule st)) as [a|] eqn:Ea|]|]|].
  2-5: unfold handleCreateRule; rewrite ?Ec, ?Eo, ?Ev, ?Ea; reflexivity.
  destruct (string_missing (Some c) || string_missing (Some o)
            || value_missing (Some v) || string_missing (Some a)) eqn:Em.
  - unfold handleCreateRule. now rewrite Ec, Eo, Ev, Ea, Em.
  - reflexivity.
Qed.

Lemma form_made_toggled i r : form_made r -> form_made (toggled i r).
Proof.
  unfold form_made. destruct (toggled_fields i r) as (_ & -> & -> & -> & -> & _). auto.
Qed.

Lemma rules_inv_init : rules_inv initial_rule_state.
Proof.
  split.
  - unfold initial_rule_state, initial_rules. cbn [rules].
    do 3 eexists. split; [reflexivity|]. repeat split; constructor.
  - cbn. intros v E. exists EmptyString. congruence.
Qed.

Lemma rules_inv_step st e : rules_inv st -> rules_inv (rule_step st e).
Proof.
  intros Hst. pose proof Hst as [(r1 & r2 & rest & Hr & H1 & V1 & H2 & V2 & HF) Hd].
  destruct e; cbn [rule_step set_draft].
  1-6: split; [exists r1, r2, rest; cbn [rules]; repeat split; auto
               |cbn [newRule draft_value]; auto].
  - intros v E. cbn in E. exists s. congruence.
  - unfold handleCreateRule.
    destruct (draft_conditionField (newRule st)) as [c|];
      [|exact Hst].
    destruct (draft_operator (newRule st)) as [o|];
      [|exact Hst].
    destruct (draft_value (newRule st)) as [v|] eqn:Ev;
      [|exact Hst].
    destruct (draft_action (newRule st)) as [a|];
      [|exact Hst].
    destruct (string_missing (Some c) || string_missing (Some o)
              || value_missing (Some v) || string_missing (Some a)) eqn:Em;
      [exact Hst|].
    apply orb_false_iff in Em. destruct Em as [Em Ma].
    apply orb_false_iff in Em. destruct Em as [Em Mv].
    apply orb_false_iff in Em. destruct Em as [Mc Mo].
    split.
    + exists r1, r2, (rest ++ [mkRule fresh c o v a true])%list. cbn [rules].
      rewrite Hr. repeat split; auto.
      apply Forall_app. split; [exact HF|]. constructor; [|constructor].
      unfold form_made. cbn [value conditionField operator action].
      destruct (Hd v eq_refl) as [s ->].
      repeat split.
      * exists s. split; auto. intros ->. discriminate.
      * intros ->. discriminate.
      * intros ->. discriminate.
      * intros ->. discriminate.
    + cbn. intros v' E. exists EmptyString. congruence.
  - split; [|cbn [toggleRule newRule]; auto].
    exists (toggled i r1), (toggled i r2), (map (toggled i) rest).
    cbn [toggleRule rules]. rewrite Hr. cbn [map].
    destruct (toggled_fields i r1) as (-> & _ & _ & -> & _).
    destruct (toggled_fields i r2) as (-> & _ & _ & -> & _).
    repeat split; auto.
    apply Forall_map. eapply Forall_impl; [|exact HF].
    intros r. apply form_made_toggled.
Qed.

Lemma rules_inv_run es : forall st, rules_inv st -> rules_inv (run_rules st es).
Proof.
  unfold run_rules. induction es as [|e es IH]; intros st Hst; simpl; auto.
  apply IH. now apply rules_inv_step.
Qed.

(** X12. After any sequence of events the list of rules still starts with
    the two initial rules, with their ids and thresholds (rules are never
    removed or reordered), and every rule behind them was made by the
    form: its threshold is a non-empty string, never a number, and its
    field, operator and action are not empty. *)
Theorem created_rules_have_string_thresholds es :
  exists r1 r2 rest,
    rules (run_rules initial_rule_state es) = r1 :: r2 :: rest /\
    id r1 = "1" /\ value r1 = NumberValue 15 /\
    id r2 = "2" /\ value r2 = StringValue "Out of Stock" /\
    Forall form_made rest.
Proof. exact (proj1 (rules_inv_run es _ rules_inv_init)). Qed.


Lemma toggleRule_witness :
  (forall r, In r (rules initial_rule_state) -> id r <> "3") /\
  toggleRule "3" initial_rule_state = initial_rule_state.
Proof.
  assert (H : forall r, In r (rules initial_rule_state) -> id r <> "3").
  { intros r [<-|[<-|[]]]; cbn; discriminate. }
  split; [exact H|].
  exact (proj2 (proj2 (toggleRule_flips_and_restores "3" initial_rule_state)) H).
Defined.

End RulesFacts.

(** * The scenario builder *)

Module ScenariosFacts.

Import Scenarios.

#[local] Open Scope string_scope.

Lemma selection_listed_step st e :
  selection_listed st -> selection_listed (scenario_step st e).
Proof.
  unfold selection_listed. intros Hst. destruct e; cbn [scenario_step]; auto.
  - destruct (nth_error (scenarios st) k) as [s|] eqn:Ek; auto.
    cbn [select activeScenario scenarios].
    destruct (is_active (activeScenario st) s); auto.
    exists s. split; auto. eapply nth_error_In; eauto.
  - cbn [handleCreateScenario activeScenario scenarios].
    destruct (activeScenario st) as [i|]; auto.
    destruct Hst as (s & Hs & Hi). exists s. split; auto.
    apply in_or_app. now left.
Qed.

Lemma selection_listed_run es : forall st,
  selection_listed st -> selection_listed (run_scenarios st es).
Proof.
  unfold run_scenarios. induction es as [|e es IH]; intros st Hst; simpl; auto.
  apply IH. now apply selection_listed_step.
Qed.

Lemma find_inactive l : find (is_active None) l = None.
Proof. induction l; simpl; auto. Qed.

Lemma activeData_listed st :
  selection_listed st ->
  match activeScenario st with
  | None => activeData st = None
  | Some i => exists s, activeData st = Some s /\ In s (scenarios st) /\ id s = i
  end.
Proof.
  unfold selection_listed, activeData. destruct (activeScenario st) as [i|].
  - intros (s & Hs & Hi).
    destruct (find (is_active (Some i)) (scenarios st)) as [s'|] eqn:Ef.
    + apply find_some in Ef. destruct Ef as [Hin He]. cbn in He.
      apply String.eqb_eq in He. eauto.
    + apply (find_none _ _ Ef) in Hs. cbn in Hs.
      apply String.eqb_neq in Hs. congruence.
  - intros _. apply find_inactive.
Qed.

(** X13. After any sequence of events in the scenario view, either no
    scenario is selected and [activeData] is undefined, or the selection
    is the [id] of a listed scenario and [activeData] is a listed scenario
    with that [id]. *)
Theorem selection_always_displayable es :
  let st := run_scenarios initial_scenario_state es in
  match activeScenario st with
  | None => activeData st = None
  | Some i => exists s, activeData st = Some s /\ In s (scenarios st) /\ id s = i
  end.
Proof.
  cbv zeta. apply activeData_listed. apply selection_listed_run. exact I.
Qed.

Lemma find_app_some {A} (f : A -> bool) l l' a :
  find f l = Some a -> find f (l ++ l') = Some a.
Proof.
  induction l as [|b l IH]; simpl; [discriminate|].
  destruct (f b); auto.
Qed.

(** X14. Creating a scenario adds one scenario and changes neither the
    selection nor the scenario displayed, whatever [id] the new scenario
    gets. *)
Theorem create_keeps_display es fresh :
  let st := run_scenarios initial_scenario_state es in
  activeScenario (handleCreateScenario fresh st) = activeScenario st /\
  activeData (handleCreateScenario fresh st) = activeData st /\
  List.length (scenarios (handleCreateScenario fresh st))
  = S (List.length (scenarios st)).
Proof.
  cbv zeta. set (st := run_scenarios initial_scenario_state es).
  assert (Hst : selection_listed st) by (apply selection_listed_run; exact I).
  apply activeData_listed in Hst.
  split; [reflexivity|]. split.
  - unfold activeData in *. cbn [handleCreateScenario activeScenario scenarios].
    destruct (activeScenario st) as [i|].
    + destruct Hst as (s & Hs & _). rewrite Hs. now apply find_app_some.
    + now rewrite !find_inactive.
  - cbn [handleCreateScenario scenarios]. rewrite length_app. simpl. lia.
Qed.

(** X15. A click on a listed scenario leaves the list as it is; on the
    selected scenario it clears the selection and the display; on another
    one it selects it and displays a scenario with its [id]. *)
Theorem click_selects_or_clears es k s :
  let st := run_scenarios initial_scenario_state es in
  nth_error (scenarios st) k = Some s ->
  let st' := scenario_step st (ClickScenario k) in
  scenarios st' = scenarios st /\
  (activeScenario st = Some (id s) ->
   activeScenario st' = None /\ activeData st' = None) /\
  (activeScenario st <> Some (id s) ->
   activeScenario st' = Some (id s) /\
   exists s', activeData st' = Some s' /\ id s' = id s).
Proof.
  cbv zeta. intros Hk. cbn [scenario_step]. rewrite Hk.
  set (st := run_scenarios initial_scenario_state es) in *.
  split; [reflexivity|]. split.
  - intros Ha. unfold activeData. cbn [select activeScenario scenarios].
    rewrite Ha. cbn [is_active]. rewrite String.eqb_refl.
    split; [reflexivity|apply find_inactive].
  - intros Ha.
    assert (Hf : is_active (activeScenario st) s = false).
    { destruct (activeScenario st) as [i|]; cbn; auto.
      apply String.eqb_neq. congruence. }
    unfold activeData. cbn [select activeScenario scenarios]. rewrite Hf.
    split; [reflexivity|].
    destruct (find (is_active (Some (id s))) (scenarios st)) as [s'|] eqn:Ef.
    + exists s'. split; auto. apply find_some in Ef. destruct Ef as [_ He].
      cbn in He. now apply String.eqb_eq.
    + apply nth_error_In in Hk. apply (find_none _ _ Ef) in Hk. cbn in Hk.
      now rewrite String.eqb_refl in Hk.
Qed.

Lemma click_selects_or_clears_witness :
  exists s,
    nth_error (scenarios (run_scenarios initial_scenario_state [])) 1 = Some s /\
    activeScenario (scenario_step (run_scenarios initial_scenario_state [])
                      (ClickScenario 1)) = Some (id s).
Proof.
  destruct (nth_error (scenarios (run_scenarios initial_scenario_state [])) 1)
    as [s|] eqn:E; [|discriminate].
  exists s. split; [reflexivity|].
  destruct (click_selects_or_clears [] 1 s E) as (_ & _ & H).
  apply H. discriminate.
Defined.

End ScenariosFacts.

(** * The application shell *)

Module AppFacts.

Import JsNumber Js Pricing Draws AppShell.

Section Facts.
Context (R : Runtime).

Lemma remove_nth_nil {A} k (l : list A) a :
  nth_error l k = Some a -> (List.length l <= 1)%nat -> remove_nth k l = [] /\ l = [a].
Proof.
  destruct l as [|b [|c l]]; simpl; intros Hk Hl; try lia.
  - destruct k; discriminate.
  - destruct k as [|k]; simpl in *.
    + split; congruence.
    + destruct k; discriminate.
Qed.

Lemma input_kept_step st e : input_kept st -> input_kept (app_step R st e).
Proof.
  intros [Hr Hp]. destruct e; cbn [app_step].
  - split; auto.
  - destruct (viewMode st); split; auto.
  - split; auto.
  - split; cbn; discriminate.
  - destruct (nth_error (pending st) k) as [d|] eqn:Ek; [|split; auto].
    assert (Hne : pending st <> []).
    { intros E. rewrite E in Ek. destruct k; discriminate. }
    split; cbn [analyze_end lastInput]; auto.
  - split; cbn [pricingResult lastInput pending]; auto; congruence.
Qed.

(** X16. Whatever the order of the events, a pricing result is never held
    without an input: the guard [lastInput &&] in front of the dashboard
    never hides a result. *)
Theorem result_has_input st :
  reachable R st -> pricingResult st <> None -> lastInput st <> None.
Proof.
  intros Hst. enough (input_kept st) as [H _] by exact H.
  induction Hst as [|st e _ IH].
  - split; intros H; now contradiction H.
  - now apply input_kept_step.
Qed.

Lemma page_inv_step st e :
  page_inv R st -> offered st e = true -> page_inv R (app_step R st e).
Proof.
  unfold page_inv. intros Hst Ho. destruct e; cbn [app_step offered] in *.
  - exact Hst.
  - destruct (viewMode st); exact Hst.
  - exact Hst.
  - destruct (viewMode st); [discriminate|].
    destruct (currentView st); try discriminate.
    destruct (pricingResult st) eqn:Er; [discriminate|].
    apply negb_true_iff in Ho.
    cbn [analyze_begin pending isAnalyzing lastInput pricingResult].
    destruct (pending st) as [|d [|d' l]]; cbn [app].
    + rewrite Er. auto.
    + destruct Hst as [Ha _]. congruence.
    + contradiction.
  - destruct (nth_error (pending st) k) as [d|] eqn:Ek; [|discriminate].
    cbn [analyze_end pending isAnalyzing lastInput pricingResult].
    destruct (pending st) as [|d0 [|d' l]] eqn:Ep.
    + destruct k; discriminate.
    + destruct Hst as (_ & Hl & _).
      destruct (remove_nth_nil k [d0] d Ek (le_n _)) as [-> Hd].
      split; [reflexivity|]. intros r Hr. exists d, o, draws.
      split; [congruence|congruence].
    + contradiction.
  - destruct (viewMode st); [discriminate|].
    destruct (currentView st); try discriminate.
    destruct (pricingResult st) eqn:Er; [|discriminate].
    cbn [pending isAnalyzing lastInput pricingResult].
    destruct (pending st) as [|d [|d' l]].
    + split; [apply Hst|]. intros r E. discriminate.
    + destruct Hst as (_ & _ & Hn). discriminate.
    + contradiction.
Qed.

(** X17. When the events come from the controls of the page (the submit
    button is disabled while [isAnalyzing]), at most one analysis is in
    flight, [isAnalyzing] holds exactly while one is, and a result held is
    the analysis of the input held with it. *)
Theorem page_shows_result_of_its_input st :
  reachable_by_page R st ->
  (List.length (pending st) <= 1)%nat /\
  (isAnalyzing st = true <-> pending st <> []) /\
  (forall r, pricingResult st = Some r ->
     exists d o draws,
       lastInput st = Some d /\ r = @analyzePrice (with_draws R draws) o d).
Proof.
  intros Hst. assert (Hi : page_inv R st).
  { induction Hst as [|st e _ IH Ho].
    - split; [reflexivity|]. intros r E. discriminate.
    - now apply page_inv_step. }
  unfold page_inv in Hi. destruct (pending st) as [|d [|d' l]].
  - destruct Hi as [Ha Hr]. split; [simpl; lia|]. split; [|exact Hr].
    rewrite Ha. split; [discriminate|congruence].
  - destruct Hi as (Ha & Hl & Hr). split; [simpl; lia|]. split.
    + rewrite Ha. split; [discriminate|reflexivity].
    + intros r E. congruence.
  - contradiction.
Qed.

End Facts.

Lemma result_has_input_witness :
  exists st,
    reachable example_runtime st /\ pricingResult st <> None /\
    lastInput st <> None.
Proof.
  exists (app_step example_runtime
            (app_step example_runtime initial_app_state (Submit (example_input 100 20)))
            (Resolve 0 Failed (fun _ => 0.5))).
  assert (Hr : reachable example_runtime
                 (app_step example_runtime
                    (app_step example_runtime initial_app_state
                       (Submit (example_input 100 20)))
                    (Resolve 0 Failed (fun _ => 0.5))))
    by (do 2 apply reach_step; apply reach_init).
  assert (Hp : pricingResult
                 (app_step example_runtime
                    (app_step example_runtime initial_app_state
                       (Submit (example_input 100 20)))
                    (Resolve 0 Failed (fun _ => 0.5))) <> None)
    by (cbn; discriminate).
  split; [exact Hr|]. split; [exact Hp|].
  exact (result_has_input example_runtime _ Hr Hp).
Defined.

Lemma page_shows_result_witness :
  exists st,
    reachable_by_page example_runtime st /\
    pricingResult st <> None /\
    (List.length (pending st) <= 1)%nat /\
    (isAnalyzing st = true <-> pending st <> []).
Proof.
  exists (app_step example_runtime
            (app_step example_runtime
               (app_step example_runtime initial_app_state Launch)
               (Submit (example_input 100 20)))
            (Resolve 0 Failed (fun _ => 0.5))).
  assert (Hr : reachable_by_page example_runtime
                 (app_step example_runtime
                    (app_step example_runtime
                       (app_step example_runtime initial_app_state Launch)
                       (Submit (example_input 100 20)))
                    (Resolve 0 Failed (fun _ => 0.5)))).
  { apply page_step; [apply page_step; [apply page_step; [apply page_init|]|]|];
      reflexivity. }
  split; [exact Hr|]. split; [cbn; discriminate|].
  destruct (page_shows_result_of_its_input example_runtime _ Hr) as (Hl & Ha & _).
  split; [exact Hl | exact Ha].
Defined.

End AppFacts.
